(** * Book catalogue service and grade analyzer: a shallow embedding

    The development follows the Python sources:
    - [lecture_5/book_api/services.py]  (pagination helpers),
    - [lecture_6/book_api/schemas.py]   (request and response schemas),
    - [lecture_6/book_api/services/books.py] and
      [lecture_6/book_api/routers/routers.py] (catalogue operations),
    - [lecture_3/student_grade_analyzer.py] (top performer).

    The [book] table has an integer primary key, so its contents are a
    finite map from identifiers to rows.  What a handler does, return a
    value or raise, is an explicit sum type, and every handler threads
    the table through.  The exceptions no handler catches are part of
    it: the [OverflowError] of the database driver on an integer that
    does not fit in 64 bits, and the [ValidationError] of a response
    schema that refuses a stored row. *)

From Stdlib Require Import ZArith String Ascii List Lia.
From stdpp Require Import base gmap strings list sorting fin_maps.

Local Open Scope string_scope.
Local Open Scope Z_scope.

(** ** Pagination helpers ([services.py]) *)

Module Pagination.

(** [offset = (page - 1) * limit] *)
Definition compute_offset (page limit : Z) : Z := (page - 1) * limit.

(** [min(limit, max_limit)] *)
Definition clamp_limit (limit max_limit : Z) : Z := Z.min limit max_limit.

End Pagination.

(** ** Request values *)

(** A Python [float], which is what a JSON number written with a
    fraction or an exponent is read as: a finite binary number
    [m * 2 ^ e], an infinity (["1e999"]) or not a number. *)
Inductive pyfloat : Type :=
  | Finite (m e : Z)
  | Infinite
  | NotANumber.

(** The value a JSON body can carry in one field: null, a boolean, an
    integer, a float, a string, or an array or object ([JOther]).
    Strings are ASCII text: the white space and the digits that [int]
    knows beyond ASCII are not represented. *)
Inductive json : Type :=
  | JNull
  | JBool (b : bool)
  | JInt (n : Z)
  | JFloat (x : pyfloat)
  | JStr (s : string)
  | JOther.

(** Outcome of validating a value against a schema: the validated
    value, a validation error, or the [OverflowError] that [int]
    raises on an infinite float inside a field validator, which the
    validation library does not turn into a validation error. *)
Inductive validated (A : Type) : Type :=
  | Valid (a : A)
  | Invalid
  | Overflowed.
Arguments Valid {A} a.
Arguments Invalid {A}.
Arguments Overflowed {A}.

(** ** Reading integers from text *)

Module PyInt.

(** [str.isspace] on an ASCII character: what [str.strip] and
    [str.split] drop. *)
Definition is_space (c : ascii) : bool :=
  let n := Z.of_N (N_of_ascii c) in
  ((9 <=? n) && (n <=? 13)) || ((28 <=? n) && (n <=? 32)).

(** The white space [int] skips around a number: tab to carriage
    return, and the space.  The separators 0x1C to 0x1F, which
    [str.strip] drops, are not among them. *)
Definition is_int_space (c : ascii) : bool :=
  let n := Z.of_N (N_of_ascii c) in
  ((9 <=? n) && (n <=? 13)) || (n =? 32).

Definition digit_val (c : ascii) : option Z :=
  let n := Z.of_N (N_of_ascii c) in
  if (48 <=? n) && (n <=? 57) then Some (n - 48) else None.

Fixpoint lstrip (l : list ascii) : list ascii :=
  match l with
  | c :: l' => if is_space c then lstrip l' else l
  | [] => []
  end.

Definition strip (l : list ascii) : list ascii :=
  rev (lstrip (rev (lstrip l))).

Fixpoint int_lstrip (l : list ascii) : list ascii :=
  match l with
  | c :: l' => if is_int_space c then int_lstrip l' else l
  | [] => []
  end.

Definition int_strip (l : list ascii) : list ascii :=
  rev (int_lstrip (rev (int_lstrip l))).

(** The number of decimal digits of a numeral; [int] refuses more
    than 4300 of them. *)
Definition count_digits (l : list ascii) : Z :=
  Z.of_nat (length (List.filter (λ c, bool_decide (is_Some (digit_val c))) l)).

(** Decimal digits; when [underscores] is set a single ["_"] may
    separate two digits, as in Python integer literals. *)
Fixpoint digits (underscores : bool) (acc : Z) (after_digit : bool)
    (l : list ascii) : option Z :=
  match l with
  | [] => if after_digit then Some acc else None
  | c :: l' =>
      match digit_val c with
      | Some d => digits underscores (10 * acc + d) true l'
      | None =>
          if underscores && after_digit && Ascii.eqb c "_"
          then digits underscores acc false l'
          else None
      end
  end.

Definition signed (underscores : bool) (l : list ascii) : option Z :=
  match l with
  | "-"%char :: l' => Z.opp <$> digits underscores 0 false l'
  | "+"%char :: l' => digits underscores 0 false l'
  | _ => digits underscores 0 false l
  end.

(** Python's [int(s)] on an ASCII string, base 10: surrounding white
    space is dropped, a sign is optional, leading zeros are allowed,
    and a numeral of more than 4300 digits is refused.  [None] stands
    for [ValueError]. *)
Definition int_of_str (s : string) : option Z :=
  let l := int_strip (list_ascii_of_string s) in
  if 4300 <? count_digits l then None else signed true l.

(** A finite float cut to the integer towards zero. *)
Definition trunc (m e : Z) : Z :=
  if 0 <=? e then m * 2 ^ e else Z.quot m (2 ^ (- e)).

(** [int(v)] on a request value; [Invalid] stands for [TypeError] or
    [ValueError], [Overflowed] for [OverflowError]. *)
Definition int (v : json) : validated Z :=
  match v with
  | JInt n => Valid n
  | JBool b => Valid (if b then 1 else 0)
  | JFloat (Finite m e) => Valid (trunc m e)
  | JFloat Infinite => Overflowed
  | JFloat NotANumber => Invalid
  | JStr s =>
      match int_of_str s with
      | Some n => Valid n
      | None => Invalid
      end
  | JNull | JOther => Invalid
  end.

End PyInt.

(** ** Schemas ([schemas.py]) *)

Module Schemas.

(** The validation library's own, lenient reading of a string as an
    integer, which the [year] field falls back on when the field
    validator hands the string through unchanged: after trimming, a
    signed integer is accepted, and so is one followed by a decimal
    point and one or more zeros (["42.0"] and ["4_2.0"] read as [42];
    ["42."] is refused).  A text of more than 4300 characters is
    refused.  This is behaviour of the library, not of this
    repository. *)
Fixpoint split_dot (l : list ascii) : option (list ascii * list ascii) :=
  match l with
  | [] => None
  | c :: l' =>
      if Ascii.eqb c "."
      then Some ([], l')
      else '(a, b) ← split_dot l'; Some (c :: a, b)
  end.

Definition str_as_int (s : string) : option Z :=
  let l := PyInt.int_strip (list_ascii_of_string s) in
  if 4300 <? Z.of_nat (length l) then None
  else
    match split_dot l with
    | Some (int_part, c :: dec_part) =>
        if forallb (fun c => Ascii.eqb c "0") (c :: dec_part)
        then PyInt.signed true int_part
        else None
    | Some (_, []) => None
    | None => PyInt.signed true l
    end.

(** [BookBase.zero_or_empty_to_none], run before the field's own
    validation.  The Python function returns [None], an [int] or its
    argument, all three request values again, unless [int] raises
    [OverflowError], which it does not catch; it reports no validation
    error itself. *)
Definition zero_or_empty_to_none (v : json) : validated json :=
  match v with
  | JStr "" | JNull => Valid JNull
  | _ =>
      match PyInt.int v with
      | Invalid => Valid v
      | Overflowed => Overflowed
      | Valid iv => Valid (if iv =? 0 then JNull else JInt iv)
      end
  end.

(** [int | None] with [ge=0, le=2030], in the library's lax mode; a
    float is read as an integer when it is one. *)
Definition optional_int_0_2030 (v : json) : validated (option Z) :=
  let bounded (n : Z) :=
    if (0 <=? n) && (n <=? 2030) then Valid (Some n) else Invalid in
  match v with
  | JNull => Valid None
  | JInt n => bounded n
  | JBool b => bounded (if b then 1 else 0)
  | JFloat (Finite m e) =>
      if (0 <=? e) || (m mod 2 ^ (- e) =? 0)
      then bounded (PyInt.trunc m e)
      else Invalid
  | JFloat _ => Invalid
  | JStr s => match str_as_int s with Some n => bounded n | None => Invalid end
  | JOther => Invalid
  end.

(** The [year] field of every schema derived from [BookBase]. *)
Definition validate_year (v : json) : validated (option Z) :=
  match zero_or_empty_to_none v with
  | Valid v' => optional_int_0_2030 v'
  | Invalid => Invalid
  | Overflowed => Overflowed
  end.

(** [str] with [min_length=1]. *)
Definition str_min_length_1 (v : json) : validated string :=
  match v with
  | JStr s => if (1 <=? String.length s)%nat then Valid s else Invalid
  | _ => Invalid
  end.

(** [str | None] without further constraint. *)
Definition optional_str (v : json) : validated (option string) :=
  match v with
  | JNull => Valid None
  | JStr s => Valid (Some s)
  | _ => Invalid
  end.

(** A JSON request body: each key is absent ([None]) or carries a
    value. *)
Record Body : Type := mkBody {
  body_title : option json;
  body_author : option json;
  body_year : option json;
}.

(** Columns shared by all schemas: [BookBase]. *)
Record BookBase : Type := mkBook {
  title : string;
  author : string;
  year : option Z;
}.

(** [BookCreate]: [title] and [author] are required, [year] defaults
    to [None] (the field validator does not run on the default).  The
    library collects the validation errors of all fields, so that an
    exception raised by the validator of [year] gets through whatever
    the other fields are. *)
Definition BookCreate (b : Body) : validated BookBase :=
  let year' :=
    match body_year b with
    | None => Valid None
    | Some y => validate_year y
    end in
  match year' with
  | Overflowed => Overflowed
  | _ =>
      match body_title b, body_author b with
      | Some t, Some a =>
          match str_min_length_1 t, str_min_length_1 a, year' with
          | Valid t', Valid a', Valid y' => Valid (mkBook t' a' y')
          | _, _, _ => Invalid
          end
      | _, _ => Invalid
      end
  end.

(** A validated [BookUpdate].  The outer [option] of a field records
    whether the request set it ([model_fields_set]); the inner value
    is what it was set to.  [title] and [author] are redeclared as
    [str | None = Field(default=None)]. *)
Record BookUpdateData : Type := mkUpdate {
  set_title : option (option string);
  set_author : option (option string);
  set_year : option (option Z);
}.

Definition field {A} (validate : json → validated A) (v : option json)
    : validated (option A) :=
  match v with
  | None => Valid None
  | Some x =>
      match validate x with
      | Valid a => Valid (Some a)
      | Invalid => Invalid
      | Overflowed => Overflowed
      end
  end.

Definition BookUpdate (b : Body) : validated BookUpdateData :=
  match field validate_year (body_year b) with
  | Overflowed => Overflowed
  | year' =>
      match field optional_str (body_title b),
            field optional_str (body_author b),
            year' with
      | Valid t, Valid a, Valid y => Valid (mkUpdate t a y)
      | _, _, _ => Invalid
      end
  end.

(** [BookRead]: a row together with its identifier. *)
Definition BookRead : Type := Z * BookBase.

Record PaginatedBook : Type := mkPage {
  books : list BookRead;
  page : Z;
  limit : Z;
  total : Z;
}.

(** The value of the [year] attribute of a row, as the validator of
    [BookRead] receives it. *)
Definition year_attribute (y : option Z) : json :=
  match y with
  | Some n => JInt n
  | None => JNull
  end.

(** A [BookRead] validated from a row ([from_attributes=True]):
    [title] and [author] have [min_length=1] again, and the [year]
    goes through the field validator and the bounds of [BookBase]. *)
Definition BookRead_validate (row : Z * BookBase) : validated BookRead :=
  match validate_year (year_attribute (year row.2)) with
  | Overflowed => Overflowed
  | year' =>
      match str_min_length_1 (JStr (title row.2)),
            str_min_length_1 (JStr (author row.2)),
            year' with
      | Valid t, Valid a, Valid y => Valid (row.1, mkBook t a y)
      | _, _, _ => Invalid
      end
  end.

(** [list[BookRead]] validated from the rows of a query. *)
Fixpoint BookRead_validate_all (rows : list (Z * BookBase))
    : validated (list BookRead) :=
  match rows with
  | [] => Valid []
  | row :: rows' =>
      match BookRead_validate row, BookRead_validate_all rows' with
      | Overflowed, _ | _, Overflowed => Overflowed
      | Valid b, Valid bs => Valid (b :: bs)
      | _, _ => Invalid
      end
  end.

(** [PaginatedBook(books=..., page=..., limit=..., total=...)]: the
    rows are validated as [BookRead]s; [Invalid] stands for the
    [ValidationError] the constructor raises. *)
Definition PaginatedBook_validate (rows : list (Z * BookBase))
    (page limit total : Z) : validated PaginatedBook :=
  match BookRead_validate_all rows with
  | Valid books => Valid (mkPage books page limit total)
  | Invalid => Invalid
  | Overflowed => Overflowed
  end.

(** A row that [BookRead] accepts, and the row as [BookRead] shows
    it: a year [0] is shown as no year. *)
Definition presentable (book : BookBase) : bool :=
  negb (String.eqb (title book) "") && negb (String.eqb (author book) "") &&
  match year book with
  | Some n => (0 <=? n) && (n <=? 2030)
  | None => true
  end.

Definition shown (book : BookBase) : BookBase :=
  mkBook (title book) (author book)
    (match year book with
     | Some 0 => None
     | y => y
     end).

End Schemas.

(** ** HTTP outcomes *)

(** What a handler does: return a value, or raise.  [Ok] carries the
    value the handler returns, before the framework serialises it
    through the route's response model.  [NoContent] is
    [HTTPException(204)], [NotFound] is [HTTPException(404)],
    [Unprocessable] is a request refused by its schema and
    [StoreFailure] is a commit refused by the table's constraints (the
    session is rolled back and the table is left as it was).
    [OverflowError] is raised by the database driver when a statement
    binds an integer outside SQLite's signed 64 bits, and by [int] on
    an infinite float; [ValidationError] is raised by the constructor
    of a response schema; no handler catches either. *)
Inductive response (A : Type) : Type :=
  | Ok (a : A)
  | NoContent
  | NotFound
  | Unprocessable
  | StoreFailure
  | OverflowError
  | ValidationError.
Arguments Ok {A} a.
Arguments NoContent {A}.
Arguments NotFound {A}.
Arguments Unprocessable {A}.
Arguments StoreFailure {A}.
Arguments OverflowError {A}.
Arguments ValidationError {A}.

(** A schema built inside a handler: the value, or the exception. *)
Definition built {A} (v : validated A) : response A :=
  match v with
  | Valid a => Ok a
  | Invalid => ValidationError
  | Overflowed => OverflowError
  end.

(** What raises keeps raising; a returned value is passed on. *)
Definition and_then {A B} (r : response A) (k : A → response B)
    : response B :=
  match r with
  | Ok a => k a
  | NoContent => NoContent
  | NotFound => NotFound
  | Unprocessable => Unprocessable
  | StoreFailure => StoreFailure
  | OverflowError => OverflowError
  | ValidationError => ValidationError
  end.

(** ** The [book] table and its queries *)

Module Sql.
Import Schemas.

(** [select(Book)]: all rows, in no particular order. *)
Definition select (database : gmap Z BookBase) : list BookRead :=
  map_to_list database.

(** An integer the driver can bind to a statement: SQLite's integers
    have 64 bits. *)
Definition fits (n : Z) : bool := (- 2 ^ 63 <=? n) && (n <? 2 ^ 63).

(** [database.get(Book, id)]: the row stored under [id]; when there
    is none, [None] if the driver can bind [id], and [OverflowError]
    if it cannot.  (SQLite holds no row under an identifier that the
    driver cannot bind, so that binding comes first in the code makes
    no difference on a table SQLite can hold.) *)
Definition get (database : gmap Z BookBase) (id : Z)
    : response (option BookBase) :=
  match database !! id with
  | Some book => Ok (Some book)
  | None => if fits id then Ok None else OverflowError
  end.

Definition by_id : relation BookRead := λ x y, x.1 ≤ y.1.

#[global] Instance by_id_dec : RelDecision by_id.
Proof. intros x y. unfold by_id. apply _. Defined.

(** [.order_by(Book.id)] *)
Definition order_by_id (rows : list BookRead) : list BookRead :=
  merge_sort by_id rows.

(** [OFFSET offset LIMIT limit] on bound values: a negative offset
    skips nothing, a negative limit is no limit. *)
Definition window (offset limit : Z) (rows : list BookRead)
    : list BookRead :=
  let rest := drop (Z.to_nat offset) rows in
  if limit <? 0 then rest else take (Z.to_nat limit) rest.

(** [database.exec(query.order_by(Book.id).offset(offset).limit(limit)).all()],
    [rows] being what [query] selects: [offset] and [limit] are bound
    to the statement, which the driver refuses when one of them does
    not fit. *)
Definition fetch (rows : list BookRead) (offset limit : Z)
    : response (list BookRead) :=
  if fits offset && fits limit
  then Ok (window offset limit (order_by_id rows))
  else OverflowError.

(** The identifier the table gives to the next inserted row: one more
    than the largest in use, [1] for an empty table.  (This is SQLite's
    choice as long as the largest identifier in use is not the largest
    integer of 64 bits.) *)
Definition next_id (database : gmap Z BookBase) : Z :=
  match (map_to_list database).*1 with
  | [] => 1
  | k :: ks => 1 + foldr Z.max k ks
  end.

Definition to_lower (c : ascii) : ascii :=
  let n := N_of_ascii c in
  if ((65 <=? n) && (n <=? 90))%N then ascii_of_N (n + 32) else c.

(** Texts are the bytes of their UTF-8 encoding.  A byte [10xxxxxx]
    continues a character; a byte from [0xC0] on starts a character
    of several bytes. *)
Definition continuation (c : ascii) : bool :=
  let n := N_of_ascii c in ((128 <=? n) && (n <? 192))%N.

Fixpoint skip_continuation (t : list ascii) : list ascii :=
  match t with
  | c :: t' => if continuation c then skip_continuation t' else t
  | [] => []
  end.

(** The text after its first character; [None] when there is no
    character to read at this place. *)
Definition after_char (t : list ascii) : option (list ascii) :=
  match t with
  | [] => None
  | c :: t' =>
      if continuation c then None
      else Some (if (192 <=? N_of_ascii c)%N then skip_continuation t' else t')
  end.

(** [LIKE]: ["%"] stands for any run of characters, ["_"] for any one
    character. *)
Fixpoint like (pattern text : list ascii) : bool :=
  match pattern with
  | [] => match text with [] => true | _ => false end
  | "%"%char :: p =>
      (fix any (t : list ascii) : bool :=
         like p t || match t with [] => false | _ :: t' => any t' end) text
  | "_"%char :: p =>
      match after_char text with None => false | Some t => like p t end
  | c :: p =>
      match text with [] => false | d :: t => Ascii.eqb c d && like p t end
  end.

(** [column.ilike(pattern)]: [lower(column) LIKE lower(pattern)]. *)
Definition ilike (column pattern : string) : bool :=
  like (to_lower <$> list_ascii_of_string pattern)
       (to_lower <$> list_ascii_of_string column).

End Sql.

(** ** Listing ([services/books.py]) *)

Module Books.
Import Pagination Schemas.

Definition total_books (database : gmap Z BookBase) : Z :=
  Z.of_nat (length (Sql.select database)).

Definition get_books (database : gmap Z BookBase) (page limit : Z)
    : response (list BookRead) :=
  let offset := compute_offset page limit in
  let query := Sql.select database in
  Sql.fetch query offset limit.

(** Raise [HTTPException(204)] on an empty page, else build the
    [PaginatedBook]. *)
Definition page_of (books : list BookRead) (page clamped_limit total : Z)
    : response PaginatedBook :=
  match books with
  | [] => NoContent
  | _ => built (PaginatedBook_validate books page clamped_limit total)
  end.

Definition paginate_books (database : gmap Z BookBase) (page limit : Z)
    : response PaginatedBook :=
  let total := total_books database in
  let clamped_limit := clamp_limit limit 25 in
  and_then (get_books database page limit) (λ books,
    page_of books page clamped_limit total).

End Books.

(** ** Handlers ([routers/routers.py]) *)

Module Routers.
Import Pagination Schemas.

(** [Query(ge=1)] on [page], [Query(ge=1, le=25)] on [limit]. *)
Definition page_query (page limit : Z) : bool :=
  (1 <=? page) && (1 <=? limit) && (limit <=? 25).

Definition read_all_books (database : gmap Z BookBase) (page limit : Z)
    : response PaginatedBook :=
  Books.paginate_books database page limit.

(** [create_book] on a validated request: the row is inserted under a
    fresh identifier and read back. *)
Definition create_book (database : gmap Z BookBase) (book_request : BookBase)
    : gmap Z BookBase * BookRead :=
  let id := Sql.next_id database in
  (<[id := book_request]> database, (id, book_request)).

(** [POST /books/]: validation of the body, then [create_book]. *)
Definition post_book (database : gmap Z BookBase) (body : Body)
    : gmap Z BookBase * response BookRead :=
  match BookCreate body with
  | Valid book_request =>
      let '(database', book) := create_book database book_request in
      (database', Ok book)
  | Invalid => (database, Unprocessable)
  | Overflowed => (database, OverflowError)
  end.

(** The filters of [search_book].  An absent or empty string adds no
    filter ([if search_by_title:]); a year adds one whenever it is
    not [None]. *)
Definition search_filters (search_by_title search_by_author : option string)
    (search_by_year : option Z) : list (BookRead → bool) :=
  (match search_by_title with
   | Some (String c s) =>
       [λ b : BookRead, Sql.ilike (title b.2) ("%" ++ String c s ++ "%")]
   | _ => []
   end) ++
  (match search_by_author with
   | Some (String c s) =>
       [λ b : BookRead, Sql.ilike (author b.2) ("%" ++ String c s ++ "%")]
   | _ => []
   end) ++
  (match search_by_year with
   | Some y => [λ b : BookRead, bool_decide (year b.2 = Some y)]
   | None => []
   end).

(** [query.where( *filters)]: the conjunction of the filters. *)
Definition where_ (filters : list (BookRead → bool)) (rows : list BookRead)
    : list BookRead :=
  List.filter (λ b, forallb (λ f, f b) filters) rows.

(** The statement [query] of [search_book]: [select(Book)], narrowed
    by [where] only when there is a filter. *)
Definition search_query (database : gmap Z BookBase)
    (filters : list (BookRead → bool)) : list BookRead :=
  match filters with
  | [] => Sql.select database
  | _ => where_ filters (Sql.select database)
  end.

(** The criteria are bound to the statement too; a text always
    binds, a year only when it fits. *)
Definition binds_year (search_by_year : option Z) : bool :=
  match search_by_year with
  | Some y => Sql.fits y
  | None => true
  end.

(** [total]: the count of the rows [query] selects. *)
Definition search_total (database : gmap Z BookBase)
    (search_by_title search_by_author : option string)
    (search_by_year : option Z) : response Z :=
  let filters :=
    search_filters search_by_title search_by_author search_by_year in
  let query := search_query database filters in
  if binds_year search_by_year
  then Ok (Z.of_nat (length query))
  else OverflowError.

(** The page [books] fetched by [search_book]. *)
Definition search_books (database : gmap Z BookBase)
    (search_by_title search_by_author : option string)
    (search_by_year : option Z) (page limit : Z)
    : response (list BookRead) :=
  let filters :=
    search_filters search_by_title search_by_author search_by_year in
  let offset := (page - 1) * limit in
  let query := search_query database filters in
  if binds_year search_by_year
  then Sql.fetch query offset limit
  else OverflowError.

(** Both statements run before the filters are looked at. *)
Definition search_book (database : gmap Z BookBase)
    (search_by_title search_by_author : option string)
    (search_by_year : option Z) (page limit : Z)
    : response PaginatedBook :=
  let filters :=
    search_filters search_by_title search_by_author search_by_year in
  let clamped_limit := clamp_limit limit 25 in
  and_then (search_total database search_by_title search_by_author
              search_by_year) (λ total,
  and_then (search_books database search_by_title search_by_author
              search_by_year page limit) (λ books,
    match filters, books with
    | [], _ | _, [] => NoContent
    | _, _ => built (PaginatedBook_validate books page clamped_limit total)
    end)).

(** [model_dump(exclude_unset=True)] followed by [sqlmodel_update]:
    a field that was set is assigned, a field that was not set keeps
    the row's value.  [title] and [author] can be assigned [None]. *)
Definition assign {A} (old : A) (new : option A) : A :=
  match new with
  | Some v => v
  | None => old
  end.

(** [update_book] on a validated request.  The columns [title] and
    [author] are [nullable=False]: committing a row where one of them
    is [None] fails. *)
Definition update_book (database : gmap Z BookBase)
    (book_request : BookUpdateData) (book_id : Z)
    : gmap Z BookBase * response BookRead :=
  match Sql.get database book_id with
  | Ok None => (database, NotFound)
  | Ok (Some book_to_update) =>
      let title' := assign (Some (title book_to_update)) (set_title book_request) in
      let author' := assign (Some (author book_to_update)) (set_author book_request) in
      let year' := assign (year book_to_update) (set_year book_request) in
      match title', author' with
      | Some t, Some a =>
          let updated := mkBook t a year' in
          (<[book_id := updated]> database, Ok (book_id, updated))
      | _, _ => (database, StoreFailure)
      end
  | _ => (database, OverflowError)
  end.

(** [PUT /books/{book_id}]: validation of the body, then
    [update_book]. *)
Definition put_book (database : gmap Z BookBase) (body : Body) (book_id : Z)
    : gmap Z BookBase * response BookRead :=
  match BookUpdate body with
  | Valid book_request => update_book database book_request book_id
  | Invalid => (database, Unprocessable)
  | Overflowed => (database, OverflowError)
  end.

(** [delete_book]; [Ok tt] is the handler returning [None]. *)
Definition delete_book (database : gmap Z BookBase) (book_id : Z)
    : gmap Z BookBase * response unit :=
  match Sql.get database book_id with
  | Ok None => (database, NotFound)
  | Ok (Some _) => (delete book_id database, Ok tt)
  | _ => (database, OverflowError)
  end.

End Routers.

(** ** Student grade analyzer ([student_grade_analyzer.py]) *)

Module Grades.

Record Student : Type := mkStudent {
  name : string;
  grades : list Z;
}.

(** *** Float arithmetic of [calculate_average]

    A finite binary64 number is [mant * 2 ^ expo] with
    [|mant| <= 2 ^ 53].  The exponent range is not modelled: the
    quotients taken here are far from overflow and underflow. *)
Record float : Type := mkFloat {
  mant : Z;
  expo : Z;
}.

(** [num / den] rounded to the nearest integer, ties to even
    ([0 <= num], [0 < den]). *)
Definition round_half_even (num den : Z) : Z :=
  let q := num / den in
  let r := num mod den in
  if 2 * r <? den then q
  else if den <? 2 * r then q + 1
  else if Z.even q then q else q + 1.

(** [a / n / 2 ^ e] as a fraction. *)
Definition scaled (a n e : Z) : Z * Z :=
  if 0 <=? e then (a, n * 2 ^ e) else (a * 2 ^ (- e), n).

(** [a / n] for two positive [int]s: the nearest binary64 number,
    with a mantissa of 53 bits. *)
Definition true_div_pos (a n : Z) : float :=
  let e0 := Z.log2 a - Z.log2 n - 52 in
  let '(num0, den0) := scaled a n e0 in
  let e := if 2 ^ 52 <=? num0 / den0 then e0 else e0 - 1 in
  let '(num, den) := scaled a n e in
  mkFloat (round_half_even num den) e.

(** [s / n] for [int]s, [0 < n]. *)
Definition true_div (s n : Z) : float :=
  match s with
  | 0 => mkFloat 0 0
  | Z.pos _ => true_div_pos s n
  | Z.neg _ =>
      let x := true_div_pos (- s) n in
      mkFloat (- mant x) (expo x)
  end.

(** [round(x, 1)]: the decimal with one digit after the point nearest
    to the exact value of [x], ties to even.  The result is given as
    its number of tenths ([850] for [85.0]); [==], [<] and [max] on
    the rounded floats are those of the tenths. *)
Definition round1 (x : float) : Z :=
  let a := Z.abs (mant x) in
  let t :=
    if 0 <=? expo x
    then 10 * a * 2 ^ expo x
    else round_half_even (10 * a) (2 ^ (- expo x)) in
  Z.sgn (mant x) * t.

Definition sum (grades : list Z) : Z := foldr Z.add 0 grades.

(** [round(sum(grades) / len(grades), 1)] on a non-empty list. *)
Definition mean1 (grades : list Z) : Z :=
  round1 (true_div (sum grades) (Z.of_nat (length grades))).

(** [calculate_average]; [None] is [ZeroDivisionError]. *)
Definition calculate_average (grades : list Z) : option Z :=
  match grades with
  | [] => None
  | _ => Some (mean1 grades)
  end.

(** *** Records *)

Definition has_grades (student : Student) : bool :=
  match grades student with
  | [] => false
  | _ => true
  end.

(** [any(student["grades"] for student in students)] *)
Definition any_grades (students : list Student) : bool :=
  existsb has_grades students.

(** One pass of the loop of [add_grades] on an input that reads as the
    integer [grade], for the student found under [student_name]. *)
Definition add_grade (students : list Student) (student_name : string)
    (grade : Z) : list Student :=
  if (0 <=? grade) && (grade <=? 100)
  then
    (λ s, if String.eqb (name s) student_name
          then mkStudent (name s) (grades s ++ [grade])
          else s) <$> students
  else students.

(** [add_student] on a name accepted by [check_name]. *)
Definition add_student (students : list Student) (student_name : string)
    : list Student :=
  if existsb (λ s, String.eqb (name s) student_name) students
  then students
  else students ++ [mkStudent student_name []].

(** The two menu entries of [main] that change the records, and the
    records after a session that starts from [students = []]. *)
Inductive command : Type :=
  | AddStudent (student_name : string)
  | AddGrade (student_name : string) (grade : Z).

Definition step (students : list Student) (c : command) : list Student :=
  match c with
  | AddStudent student_name => add_student students student_name
  | AddGrade student_name grade => add_grade students student_name grade
  end.

Definition run (session : list command) : list Student :=
  fold_left step session [].

(** Every grade lies in [0, 100]: the only writer of grades is the
    loop of [add_grades], guarded by [0 <= grade <= 100]. *)
Definition valid_grades (grades : list Z) : bool :=
  forallb (λ g, (0 <=? g) && (g <=? 100)) grades.

Definition valid_students (students : list Student) : bool :=
  forallb (λ s, valid_grades (grades s)) students.

(** *** Top performer *)

(** The ranking key: [calculate_average] of the grades, or of [[-1]]
    for a student without grades. *)
Definition key (student : Student) : Z :=
  mean1 (if has_grades student then grades student else [-1]).

(** [max(first :: rest, key=key)]: the first element with the largest
    key. *)
Fixpoint max_by {A} (key : A → Z) (best : A) (rest : list A) : A :=
  match rest with
  | [] => best
  | x :: rest' => max_by key (if key best <? key x then x else best) rest'
  end.

(** Names paired with averages, for the students who have grades. *)
Definition all_averages (students : list Student) : list (string * Z) :=
  (λ s, (name s, mean1 (grades s))) <$> List.filter has_grades students.

Definition all_top_students (students : list Student) (top_average : Z)
    : list string :=
  fst <$> List.filter (λ p, p.2 =? top_average) (all_averages students).

(** [", ".join(names)] *)
Fixpoint join (names : list string) : string :=
  match names with
  | [] => ""
  | [n] => n
  | n :: rest => n ++ ", " ++ join rest
  end.

(** What [top_performer] prints. *)
Inductive report : Type :=
  | NoStudents
  | NoGrades
  | TopOne (student : string) (top_average : Z)
  | TopMany (names_of_tops : string) (top_average : Z)
  | Raised.

Definition announce (tops : list string) (top_average : Z) : report :=
  match tops with
  | [] => Raised
  | [student] => TopOne student top_average
  | _ =>
      TopMany (join (removelast tops) ++ " and " ++ List.last tops "")
              top_average
  end.

Definition top_performer (students : list Student) : report :=
  match students with
  | [] => NoStudents
  | first :: rest =>
      if any_grades students then
        let top_student := max_by key first rest in
        match calculate_average (grades top_student) with
        | None => Raised
        | Some top_average =>
            announce (all_top_students students top_average) top_average
        end
      else NoGrades
  end.

End Grades.

(** ** The earlier listing ([lecture_5/book_api/books1.py]) *)

Module Books5.
Import Pagination Schemas.

(** [total_books] and [get_books] read as in [services/books.py]; this
    [paginate_books] builds the page whether or not it holds rows. *)
Definition paginate_books (database : gmap Z BookBase) (page limit : Z)
    : response PaginatedBook :=
  let total := Books.total_books database in
  let clamped_limit := clamp_limit limit 25 in
  and_then (Books.get_books database page limit) (λ books,
    built (PaginatedBook_validate books page clamped_limit total)).

End Books5.

(** ** Routes: the handlers behind their parameter constraints *)

Module Api.
Import Schemas.

(** [GET /books/]: [page] and [limit] are checked before
    [read_all_books] runs. *)
Definition list_route (database : gmap Z BookBase) (page limit : Z)
    : response PaginatedBook :=
  if Routers.page_query page limit
  then Routers.read_all_books database page limit
  else Unprocessable.

(** [Query(min_length=1)] on an optional string. *)
Definition text_query (v : option string) : bool :=
  match v with
  | Some "" => false
  | _ => true
  end.

(** [Query(ge=0, le=2030)] on an optional integer. *)
Definition year_query (v : option Z) : bool :=
  match v with
  | Some y => (0 <=? y) && (y <=? 2030)
  | None => true
  end.

(** [GET /books/search] *)
Definition search_route (database : gmap Z BookBase)
    (search_by_title search_by_author : option string)
    (search_by_year : option Z) (page limit : Z)
    : response PaginatedBook :=
  if text_query search_by_title && text_query search_by_author &&
     year_query search_by_year && Routers.page_query page limit
  then Routers.search_book database search_by_title search_by_author
         search_by_year page limit
  else Unprocessable.

(** [PUT /books/{book_id}] with [Path(ge=1)]. *)
Definition put_route (database : gmap Z BookBase) (body : Body) (book_id : Z)
    : gmap Z BookBase * response BookRead :=
  if 1 <=? book_id
  then Routers.put_book database body book_id
  else (database, Unprocessable).

(** [DELETE /books/{book_id}] with [Path(ge=1)]. *)
Definition delete_route (database : gmap Z BookBase) (book_id : Z)
    : gmap Z BookBase * response unit :=
  if 1 <=? book_id
  then Routers.delete_book database book_id
  else (database, Unprocessable).

(** The requests that can change the table, and the table after a
    sequence of them. *)
Inductive request : Type :=
  | Post (body : Body)
  | Put (body : Body) (book_id : Z)
  | Delete (book_id : Z).

Definition serve (database : gmap Z BookBase) (r : request)
    : gmap Z BookBase :=
  match r with
  | Post body => (Routers.post_book database body).1
  | Put body book_id => (put_route database body book_id).1
  | Delete book_id => (delete_route database book_id).1
  end.

Definition serve_all (database : gmap Z BookBase) (requests : list request)
    : gmap Z BookBase :=
  fold_left serve requests database.

(** A table in which identifiers start at [1] and a year, when there
    is one, lies in [0, 2030]. *)
Definition well_formed (database : gmap Z BookBase) : Prop :=
  ∀ id book, database !! id = Some book →
    1 ≤ id ∧ ∀ n, year book = Some n → 0 ≤ n ≤ 2030.

End Api.

(** ** Profile generator ([mini_profile_generator.py]) *)

Module Profile.

(** [generate_profile]; [None] is the value of a call that runs past
    the last [elif]. *)
Definition generate_profile (age : Z) : option string :=
  if age <=? 12 then Some "Child"
  else if (13 <=? age) && (age <=? 19) then Some "Teenager"
  else if 20 <=? age then Some "Adult"
  else None.

(** [current_age = 2025 - birth_year] *)
Definition current_age (birth_year : Z) : Z := 2025 - birth_year.

(** [life_stage] as the script computes it from the text typed for the
    birth year; the outer [None] is the [ValueError] of [int]. *)
Definition life_stage (birth_year_str : string) : option (option string) :=
  birth_year ← PyInt.int_of_str birth_year_str;
  Some (generate_profile (current_age birth_year)).

End Profile.

(** ** Student names ([check_name]) *)

Module Names.

(** The model reads ASCII input: [isalpha] is the test for a letter
    [A-Z] or [a-z], and of the characters of [allowed_char] the space,
    the hyphen and the apostrophe are ASCII. *)
Definition is_alpha (c : ascii) : bool :=
  let n := N_of_ascii c in
  (((65 <=? n) && (n <=? 90)) || ((97 <=? n) && (n <=? 122)))%N.

Definition allowed_char (c : ascii) : bool :=
  Ascii.eqb c " " || Ascii.eqb c "-" || Ascii.eqb c "'".

Definition to_upper (c : ascii) : ascii :=
  let n := N_of_ascii c in
  if ((97 <=? n) && (n <=? 122))%N then ascii_of_N (n - 32) else c.

Definition is_ascii (l : list ascii) : bool :=
  forallb (λ c, (N_of_ascii c <? 128)%N) l.

(** [text.split()]: the maximal runs of characters that are not white
    space. *)
Fixpoint split (l : list ascii) : list (list ascii) :=
  match l with
  | [] => []
  | c :: l' =>
      if PyInt.is_space c then split l'
      else
        match l' with
        | [] => [[c]]
        | d :: _ =>
            if PyInt.is_space d then [c] :: split l'
            else
              match split l' with
              | w :: ws => (c :: w) :: ws
              | [] => [[c]]
              end
        end
  end.

(** [" ".join(words)] *)
Fixpoint join (words : list (list ascii)) : list ascii :=
  match words with
  | [] => []
  | [w] => w
  | w :: ws => w ++ " "%char :: join ws
  end.

(** [text.title()], started with the flag [previous_is_cased]: a letter
    that follows a letter is put in lower case, any other letter in
    upper case. *)
Fixpoint title (previous_is_cased : bool) (l : list ascii) : list ascii :=
  match l with
  | [] => []
  | c :: l' =>
      (if previous_is_cased then Sql.to_lower c else to_upper c)
        :: title (is_alpha c) l'
  end.

(** A word: at least one character, none of them white space. *)
Definition is_word (w : list ascii) : bool :=
  match w with
  | [] => false
  | _ => forallb (λ c, negb (PyInt.is_space c)) w
  end.

(** One pass of the loop of [check_name]: ask again (after a message),
    go back to the menu ([return None]), or return the formatted
    name. *)
Inductive outcome : Type :=
  | Again (message : string)
  | Menu
  | Name (formatted : string).

Definition check (name_input : list ascii) : outcome :=
  match name_input with
  | [] => Again "Name cannot be empty."
  | _ =>
      if bool_decide (name_input = ["1"%char]) then Menu
      else if forallb (λ char, is_alpha char || allowed_char char) name_input
      then Name (string_of_list_ascii (title false (join (split name_input))))
      else Again "Please enter a valid name."
  end.

Definition check_name_once (input : string) : outcome :=
  check (PyInt.strip (list_ascii_of_string input)).

(** [check_name] on the lines typed at its prompt: lines that are
    refused are asked again.  The result is what the function returns
    ([None] for the menu, or the formatted name) with the lines not yet
    read; the outer [None] is the program still waiting at the prompt. *)
Fixpoint check_name (inputs : list string)
    : option (option string * list string) :=
  match inputs with
  | [] => None
  | input :: rest =>
      match check_name_once input with
      | Again _ => check_name rest
      | Menu => Some (None, rest)
      | Name formatted => Some (Some formatted, rest)
      end
  end.

(** [add_student], reading the name through [check_name]. *)
Definition add_student (students : list Grades.Student) (inputs : list string)
    : option (list Grades.Student * list string) :=
  match check_name inputs with
  | None => None
  | Some (None, rest) => Some (students, rest)
  | Some (Some student_name, rest) =>
      Some (Grades.add_student students student_name, rest)
  end.

(** The loop of [add_grades] on the lines typed at its prompt: the
    grades it accepts, in order, and the lines left after the one that
    reads "done" in any letter case.  A line that [int] cannot read, or
    a number outside [0, 100], is answered with a message and the loop
    goes on. *)
Fixpoint read_grades (inputs : list string) : option (list Z * list string) :=
  match inputs with
  | [] => None
  | grade_input :: rest =>
      if bool_decide ((Sql.to_lower <$> list_ascii_of_string grade_input)
                      = list_ascii_of_string "done")
      then Some ([], rest)
      else
        match PyInt.int_of_str grade_input with
        | None => read_grades rest
        | Some grade =>
            if (0 <=? grade) && (grade <=? 100)
            then '(grades, rest') ← read_grades rest; Some (grade :: grades, rest')
            else read_grades rest
        end
  end.

(** [add_grades]: nothing is read when there are no students; otherwise
    the name is read through [check_name] and, for a student that
    exists, the grades through the loop. *)
Definition add_grades (students : list Grades.Student) (inputs : list string)
    : option (list Grades.Student * list string) :=
  match students with
  | [] => Some (students, inputs)
  | _ =>
      match check_name inputs with
      | None => None
      | Some (None, rest) => Some (students, rest)
      | Some (Some student_name, rest) =>
          if existsb (λ s, String.eqb (Grades.name s) student_name) students
          then
            '(grades, rest') ← read_grades rest;
            Some ((λ s, if String.eqb (Grades.name s) student_name
                        then Grades.mkStudent (Grades.name s)
                               (Grades.grades s ++ grades)
                        else s) <$> students, rest')
          else Some (students, rest)
      end
  end.

End Names.

(** ** Vocabulary for the search properties *)

Module Text.


(** The characters of a string, each letter in lower case: what
    [lower(...)] hands to [LIKE]. *)
Definition lower (s : string) : list ascii :=
  Sql.to_lower <$> list_ascii_of_string s.

(** The conjunction of the criteria of a search, as one predicate on
    rows. *)
Definition matches (search_by_title search_by_author : option string)
    (search_by_year : option Z) (b : Schemas.BookRead) : bool :=
  forallb (λ f : Schemas.BookRead → bool, f b)
    (Routers.search_filters search_by_title search_by_author search_by_year).

End Text.

(** ** Sample data *)

Module Samples.
Import Schemas Grades.

Definition dune : BookBase := mkBook "Dune" "Herbert" None.
Definition emma : BookBase := mkBook "Emma" "Austen" (Some 1815).

(** Two books, as left by two [POST]s on an empty table. *)
Definition shelf : gmap Z BookBase := <[2 := emma]> (<[1 := dune]> ∅).

(** Twenty-six books, identifiers [1] to [26]. *)
Definition long_shelf : gmap Z BookBase :=
  list_to_map ((λ i : nat, (Z.of_nat i, dune)) <$> seq 1 26).

Definition title_only (t : string) : Body :=
  mkBody (Some (JStr t)) None None.

Definition alice_bob : list Student :=
  [mkStudent "Alice" [90; 80]; mkStudent "Bob" [85; 85]].

Definition alice_bob_session : list command :=
  [AddStudent "Alice"; AddStudent "Bob"; AddGrade "Alice" 90;
   AddGrade "Bob" 85; AddGrade "Alice" 80; AddGrade "Bob" 85;
   AddGrade "Bob" 101].

Definition class_of_four : list Student :=
  [mkStudent "Ann" []; mkStudent "Ben" [70; 71];
   mkStudent "Cy" [100; 41]; mkStudent "Dee" [0]].

End Samples.

(** * Properties *)

Import Pagination Schemas.

(** ** Ordering and windows of rows *)

Section ordering.

#[local] Instance by_id_transitive : Transitive Sql.by_id.
Proof. intros x y z. unfold Sql.by_id. lia. Qed.

#[local] Instance by_id_total : Total Sql.by_id.
Proof. intros x y. unfold Sql.by_id. lia. Qed.

Lemma order_by_id_perm (rows : list BookRead) : Sql.order_by_id rows ≡ₚ rows.
Proof. apply merge_sort_Permutation. Qed.

Lemma order_by_id_length (rows : list BookRead) :
  length (Sql.order_by_id rows) = length rows.
Proof. by rewrite order_by_id_perm. Qed.

Lemma order_by_id_sorted (rows : list BookRead) :
  StronglySorted Sql.by_id (Sql.order_by_id rows).
Proof. apply StronglySorted_merge_sort; apply _. Qed.

(** Without repeated identifiers, sorted means strictly ascending. *)
Lemma sorted_nodup_ascending (rows : list BookRead) :
  StronglySorted Sql.by_id rows →
  NoDup rows.*1 →
  StronglySorted (λ x y : BookRead, x.1 < y.1) rows.
Proof.
  induction 1 as [|x l Hl IH Hx]; intros Hnd; [constructor|].
  rewrite fmap_cons in Hnd. apply NoDup_cons in Hnd as [Hnotin Hnd].
  constructor; [by apply IH|].
  rewrite Forall_forall in Hx. apply Forall_forall. intros y Hy.
  assert (x.1 ≠ y.1).
  { intros Heq. apply Hnotin. rewrite Heq. by apply list_elem_of_fmap_2. }
  specialize (Hx y Hy). unfold Sql.by_id in Hx. lia.
Qed.

Lemma select_ascending (database : gmap Z BookBase) :
  StronglySorted (λ x y : BookRead, x.1 < y.1)
    (Sql.order_by_id (Sql.select database)).
Proof.
  apply sorted_nodup_ascending; [apply order_by_id_sorted|].
  rewrite order_by_id_perm. apply NoDup_fst_map_to_list.
Qed.

Lemma fits_spec (n : Z) : Sql.fits n = true ↔ - 2 ^ 63 ≤ n < 2 ^ 63.
Proof. unfold Sql.fits. rewrite andb_true_iff, Z.leb_le, Z.ltb_lt. done. Qed.

Lemma fits_false (n : Z) : Sql.fits n = false ↔ n < - 2 ^ 63 ∨ 2 ^ 63 ≤ n.
Proof.
  unfold Sql.fits. rewrite andb_false_iff, Z.leb_gt, Z.ltb_ge. done.
Qed.

Lemma window_nonneg (offset limit : Z) (rows : list BookRead) :
  0 ≤ limit →
  Sql.window offset limit rows =
    take (Z.to_nat limit) (drop (Z.to_nat offset) rows).
Proof. intros Hn. unfold Sql.window. case_match; [lia | done]. Qed.

Lemma fetch_Ok (rows : list BookRead) (offset limit : Z)
    (fetched : list BookRead) :
  Sql.fetch rows offset limit = Ok fetched ↔
  Sql.fits offset = true ∧ Sql.fits limit = true ∧
  fetched = Sql.window offset limit (Sql.order_by_id rows).
Proof.
  unfold Sql.fetch.
  destruct (Sql.fits offset), (Sql.fits limit); simpl;
    split; try (by intros [= ->]); try (by intros (? & ? & ?)).
  by intros (_ & _ & ->).
Qed.

Lemma fetch_fits (rows : list BookRead) (offset limit : Z) :
  Sql.fits offset = true → Sql.fits limit = true →
  Sql.fetch rows offset limit =
    Ok (Sql.window offset limit (Sql.order_by_id rows)).
Proof. intros Ho Hl. unfold Sql.fetch. by rewrite Ho, Hl. Qed.

(** A fetch returns rows or raises [OverflowError]. *)
Lemma fetch_cases (rows : list BookRead) (offset limit : Z) :
  Sql.fetch rows offset limit =
    Ok (Sql.window offset limit (Sql.order_by_id rows)) ∨
  Sql.fetch rows offset limit = OverflowError.
Proof. unfold Sql.fetch. case_match; [by left | by right]. Qed.

Lemma get_books_window (database : gmap Z BookBase) (page limit : Z) :
  0 ≤ limit →
  Sql.fits (compute_offset page limit) = true → Sql.fits limit = true →
  Books.get_books database page limit =
    Ok (take (Z.to_nat limit)
          (drop (Z.to_nat (compute_offset page limit))
             (Sql.order_by_id (Sql.select database)))).
Proof.
  intros Hl Hfo Hfl. unfold Books.get_books.
  rewrite fetch_fits by done. by rewrite window_nonneg.
Qed.

Lemma get_books_Ok (database : gmap Z BookBase) (page limit : Z)
    (fetched : list BookRead) :
  0 ≤ limit →
  Books.get_books database page limit = Ok fetched →
  Sql.fits (compute_offset page limit) = true ∧ Sql.fits limit = true ∧
  fetched =
    take (Z.to_nat limit)
      (drop (Z.to_nat (compute_offset page limit))
         (Sql.order_by_id (Sql.select database))).
Proof.
  intros Hl (Hfo & Hfl & ->)%fetch_Ok.
  by rewrite window_nonneg.
Qed.

Lemma get_books_length (database : gmap Z BookBase) (page limit : Z)
    (fetched : list BookRead) :
  1 ≤ page → 1 ≤ limit →
  Books.get_books database page limit = Ok fetched →
  Z.of_nat (length fetched) =
    Z.min limit
      (Z.max 0 (Books.total_books database - compute_offset page limit)).
Proof.
  intros Hp Hl (_ & _ & ->)%get_books_Ok; [|lia].
  rewrite length_take, length_drop, order_by_id_length.
  unfold Books.total_books, compute_offset. nia.
Qed.

(** What the validation of rows as [BookRead]s lets through, and what
    it makes of them. *)
Lemma BookRead_validate_spec (row : BookRead) :
  BookRead_validate row =
    if presentable row.2 then Valid (row.1, shown row.2) else Invalid.
Proof.
  destruct row as [id [t a y]].
  unfold BookRead_validate, validate_year, presentable, shown. simpl.
  destruct y as [n|]; simpl.
  - destruct (Z.eqb_spec n 0) as [->|Hn]; simpl.
    + by destruct t, a.
    + destruct ((0 <=? n) && (n <=? 2030)); destruct t, a; simpl; try done.
      by destruct n.
  - by destruct t, a.
Qed.

Lemma BookRead_validate_all_spec (rows : list BookRead) :
  BookRead_validate_all rows =
    if forallb (λ row : BookRead, presentable row.2) rows
    then Valid ((λ row : BookRead, (row.1, shown row.2)) <$> rows)
    else Invalid.
Proof.
  induction rows as [|row rows IH]; [done|].
  cbn [BookRead_validate_all forallb]. rewrite fmap_cons.
  rewrite BookRead_validate_spec, IH.
  by destruct (presentable row.2), (forallb _ rows).
Qed.

(** The page built from fetched rows. *)
Lemma built_page (rows : list BookRead) (page limit total : Z) :
  built (PaginatedBook_validate rows page limit total) =
    if forallb (λ row : BookRead, presentable row.2) rows
    then Ok (mkPage ((λ row : BookRead, (row.1, shown row.2)) <$> rows)
               page limit total)
    else ValidationError.
Proof.
  unfold PaginatedBook_validate. rewrite BookRead_validate_all_spec.
  by destruct (forallb _ rows).
Qed.

Lemma page_of_Ok (rows : list BookRead) (page limit total : Z)
    (paginated : PaginatedBook) :
  Books.page_of rows page limit total = Ok paginated ↔
  rows ≠ [] ∧
  forallb (λ row : BookRead, presentable row.2) rows = true ∧
  paginated =
    mkPage ((λ row : BookRead, (row.1, shown row.2)) <$> rows) page limit total.
Proof.
  unfold Books.page_of. destruct rows as [|row rows].
  - split; [discriminate | by intros [? _]].
  - rewrite built_page.
    destruct (forallb _ (row :: rows)).
    + split; [by intros [= <-] | by intros (_ & _ & ->)].
    + split; [discriminate | by intros (_ & [=] & _)].
Qed.

(** What [paginate_books] returns when it returns. *)
Lemma paginate_books_Ok (database : gmap Z BookBase) (page limit : Z)
    (paginated : PaginatedBook) :
  Books.paginate_books database page limit = Ok paginated ↔
  ∃ fetched,
    Books.get_books database page limit = Ok fetched ∧
    fetched ≠ [] ∧
    forallb (λ row : BookRead, presentable row.2) fetched = true ∧
    paginated =
      mkPage ((λ row : BookRead, (row.1, shown row.2)) <$> fetched)
        page (Z.min limit 25) (Books.total_books database).
Proof.
  unfold Books.paginate_books, clamp_limit.
  destruct (Books.get_books database page limit) as [fetched| | | | | |];
    simpl; try (split; [discriminate | by intros (? & [=] & _)]).
  rewrite page_of_Ok. split.
  - intros H. by exists fetched.
  - by intros (? & [= <-] & H).
Qed.

End ordering.

(** C6: for [page >= 1] and [limit >= 1], when the offset
    [compute_offset page limit = (page - 1) * limit] and [limit] are
    below [2 ^ 63], the fetched page is the table in ascending order of
    identifier, without its first [compute_offset page limit] rows and
    cut after [limit] rows; when one of them is [2 ^ 63] or more the
    fetch raises [OverflowError].  [compute_offset 1 n = 0] for every
    [n]. *)
Theorem get_books_ordered_window (database : gmap Z BookBase) (page limit : Z) :
  1 ≤ page → 1 ≤ limit →
  (∃ ordered : list BookRead,
     ordered ≡ₚ map_to_list database ∧
     StronglySorted (λ x y : BookRead, x.1 < y.1) ordered ∧
     Books.get_books database page limit =
       if (compute_offset page limit <? 2 ^ 63) && (limit <? 2 ^ 63)
       then Ok (take (Z.to_nat limit)
                  (drop (Z.to_nat (compute_offset page limit)) ordered))
       else OverflowError) ∧
  (∀ fetched, Books.get_books database page limit = Ok fetched →
     (length fetched ≤ Z.to_nat limit)%nat) ∧
  compute_offset page limit = (page - 1) * limit ∧
  ∀ n, compute_offset 1 n = 0.
Proof.
  intros Hp Hl. split; [|split; [|split]].
  - exists (Sql.order_by_id (Sql.select database)).
    split; [apply order_by_id_perm|].
    split; [apply select_ascending|].
    assert (0 ≤ compute_offset page limit) by (unfold compute_offset; nia).
    destruct (compute_offset page limit <? 2 ^ 63) eqn:Ho;
      [destruct (limit <? 2 ^ 63) eqn:Hlim|]; simpl.
    + apply get_books_window; [lia| |]; apply fits_spec; lia.
    + unfold Books.get_books, Sql.fetch.
      replace (Sql.fits limit) with false; [by rewrite andb_false_r|].
      symmetry. apply fits_false. lia.
    + unfold Books.get_books, Sql.fetch.
      replace (Sql.fits (compute_offset page limit)) with false; [done|].
      symmetry. apply fits_false. lia.
  - intros fetched (_ & _ & ->)%get_books_Ok; [|lia].
    rewrite length_take. lia.
  - reflexivity.
  - intros n. unfold compute_offset. lia.
Qed.

Lemma get_books_ordered_window_witness :
  1 ≤ 2 ∧ 1 ≤ 1 ∧
  Books.get_books Samples.shelf 2 1 = Ok [(2, Samples.emma)] ∧
  ∃ ordered : list BookRead,
    ordered ≡ₚ map_to_list Samples.shelf ∧
    StronglySorted (λ x y : BookRead, x.1 < y.1) ordered ∧
    Books.get_books Samples.shelf 2 1 =
      if (compute_offset 2 1 <? 2 ^ 63) && (1 <? 2 ^ 63)
      then Ok (take (Z.to_nat 1) (drop (Z.to_nat (compute_offset 2 1)) ordered))
      else OverflowError.
Proof.
  split; [lia|]. split; [lia|]. split; [vm_compute; reflexivity|].
  apply (get_books_ordered_window Samples.shelf 2 1); lia.
Defined.

(** C6 read for every [page >= 1] fails: page
    [2 ^ 63 + 1] with limit [1] fetches no list of rows at all. *)
Lemma get_books_ordered_window_counterexample :
  1 ≤ 2 ^ 63 + 1 ∧ 1 ≤ 1 ∧
  Books.get_books Samples.shelf (2 ^ 63 + 1) 1 = OverflowError ∧
  ¬ ∃ ordered : list BookRead,
      Books.get_books Samples.shelf (2 ^ 63 + 1) 1 =
        Ok (take (Z.to_nat 1)
              (drop (Z.to_nat (compute_offset (2 ^ 63 + 1) 1)) ordered)).
Proof.
  split; [lia|]. split; [lia|].
  assert (H : Books.get_books Samples.shelf (2 ^ 63 + 1) 1 = OverflowError)
    by (vm_compute; reflexivity).
  split; [exact H|]. intros [ordered Hordered].
  rewrite H in Hordered. discriminate.
Qed.

(** ** Listing *)

(** C2: for [page >= 1] and [limit >= 1], a page that [paginate_books]
    returns reports [min(limit, 25)] while it holds the rows fetched
    with the limit that was given: [limit] of them whenever that many
    remain after the offset, whatever the size of [limit].  It does
    return a page when that many remain, the table has fewer than
    [2 ^ 63] rows and [BookRead] accepts each of them. *)
Theorem paginate_books_reports_clamped_limit
    (database : gmap Z BookBase) (page limit : Z) :
  1 ≤ page → 1 ≤ limit →
  (∀ fetched, Books.get_books database page limit = Ok fetched →
     Z.of_nat (length fetched) =
       Z.min limit
         (Z.max 0 (Books.total_books database - compute_offset page limit))) ∧
  (∀ result, Books.paginate_books database page limit = Ok result →
     ∃ fetched,
       Books.get_books database page limit = Ok fetched ∧
       books result = (λ row : BookRead, (row.1, shown row.2)) <$> fetched ∧
       Z.of_nat (length (books result)) =
         Z.min limit
           (Z.max 0 (Books.total_books database - compute_offset page limit)) ∧
       Schemas.limit result = Z.min limit 25 ∧
       Schemas.page result = page ∧
       Schemas.total result = Books.total_books database) ∧
  (compute_offset page limit + limit ≤ Books.total_books database →
   Books.total_books database < 2 ^ 63 →
   forallb (λ row : BookRead, presentable row.2) (Sql.select database) = true →
   ∃ result, Books.paginate_books database page limit = Ok result ∧
             Z.of_nat (length (books result)) = limit ∧
             Schemas.limit result = Z.min limit 25).
Proof.
  intros Hp Hl. split; [|split].
  - intros fetched. by apply get_books_length.
  - intros result (fetched & Hf & _ & _ & ->)%paginate_books_Ok.
    exists fetched. split; [done|]. split; [done|]. simpl.
    rewrite length_fmap. split; [|done]. by apply get_books_length.
  - intros Hroom Htotal Hpres.
    assert (0 ≤ compute_offset page limit) by (unfold compute_offset; nia).
    assert (Hf : Books.get_books database page limit =
                 Ok (take (Z.to_nat limit)
                       (drop (Z.to_nat (compute_offset page limit))
                          (Sql.order_by_id (Sql.select database)))))
      by (apply get_books_window; [lia| |]; apply fits_spec; lia).
    pose proof (get_books_length _ _ _ _ Hp Hl Hf) as Hlen.
    set (fetched := take _ _) in *.
    exists (mkPage ((λ row : BookRead, (row.1, shown row.2)) <$> fetched)
              page (Z.min limit 25) (Books.total_books database)).
    split; [|split; [|done]].
    + apply paginate_books_Ok. exists fetched. split; [done|].
      split; [intros Hnil; rewrite Hnil in Hlen; simpl in Hlen; lia|].
      split; [|done].
      apply forallb_forall. intros row Hrow.
      rewrite forallb_forall in Hpres. apply Hpres.
      apply list_elem_of_In. apply list_elem_of_In in Hrow.
      subst fetched. apply subseteq_take, subseteq_drop in Hrow.
      by rewrite order_by_id_perm in Hrow.
    + simpl. rewrite length_fmap. lia.
Qed.

(** A request for 26 rows on a table of 26: all of them are returned,
    under a reported limit of 25. *)
Lemma paginate_books_reports_clamped_limit_witness :
  1 ≤ 1 ∧ 1 ≤ 26 ∧
  compute_offset 1 26 + 26 ≤ Books.total_books Samples.long_shelf ∧
  ∃ result, Books.paginate_books Samples.long_shelf 1 26 = Ok result ∧
            Z.of_nat (length (books result)) = 26 ∧
            Schemas.limit result = Z.min 26 25.
Proof.
  split; [lia|]. split; [lia|].
  assert (Hroom : compute_offset 1 26 + 26 ≤ Books.total_books Samples.long_shelf)
    by (vm_compute; discriminate).
  split; [exact Hroom|].
  apply (paginate_books_reports_clamped_limit Samples.long_shelf 1 26);
    [lia | lia | exact Hroom | vm_compute; reflexivity | vm_compute; reflexivity].
Defined.

(** C8: when the fetched page is empty the list operation raises the
    204 exception and returns no page; page 1 with limit 10 of the empty
    table is such a case, the fetched rows being [[]] and the count
    [0]. *)
Theorem read_all_books_empty_page_no_content
    (database : gmap Z BookBase) (page limit : Z) :
  Books.get_books database page limit = Ok [] →
  Routers.read_all_books database page limit = NoContent ∧
  Books.get_books ∅ 1 10 = Ok [] ∧
  Books.total_books ∅ = 0 ∧
  Routers.read_all_books ∅ 1 10 = NoContent.
Proof.
  intros Hempty. split.
  - unfold Routers.read_all_books, Books.paginate_books. by rewrite Hempty.
  - by vm_compute.
Qed.

Lemma read_all_books_empty_page_no_content_witness :
  Books.get_books Samples.shelf 2 10 = Ok [] ∧
  Routers.read_all_books Samples.shelf 2 10 = NoContent.
Proof.
  assert (H : Books.get_books Samples.shelf 2 10 = Ok [])
    by (vm_compute; reflexivity).
  split; [exact H|].
  apply (read_all_books_empty_page_no_content Samples.shelf 2 10 H).
Defined.

(** ** Search *)

Lemma search_filters_none : Routers.search_filters None None None = [].
Proof. reflexivity. Qed.

(** C3: the search raises the 204 exception, and returns no page,
    whenever the fetched page of matching rows is empty, and whenever
    no criterion is supplied and the offset [(page - 1) * limit] and
    [limit] fit in 64 bits; without criteria and with an offset or a
    limit that does not fit, on any table, it raises [OverflowError],
    and in neither case does it return a page. *)
Theorem search_book_miss (database : gmap Z BookBase)
    (search_by_title search_by_author : option string)
    (search_by_year : option Z) (page limit : Z) :
  (search_by_title = None ∧ search_by_author = None ∧ search_by_year = None ∧
   Sql.fits ((page - 1) * limit) = true ∧ Sql.fits limit = true) ∨
  Routers.search_books database search_by_title search_by_author
    search_by_year page limit = Ok [] →
  Routers.search_book database search_by_title search_by_author
    search_by_year page limit = NoContent ∧
  Routers.search_book database None None None page limit =
    (if Sql.fits ((page - 1) * limit) && Sql.fits limit
     then NoContent else OverflowError).
Proof.
  intros H. split.
  - destruct H as [(-> & -> & -> & Ho & Hl) | Hempty].
    + unfold Routers.search_book, Routers.search_total, Routers.search_books.
      rewrite search_filters_none. simpl. by rewrite fetch_fits.
    + unfold Routers.search_book. rewrite Hempty.
      unfold Routers.search_books, Routers.search_total in *.
      destruct (Routers.binds_year search_by_year); [|discriminate]. simpl.
      by destruct (Routers.search_filters _ _ _).
  - unfold Routers.search_book, Routers.search_total, Routers.search_books.
    rewrite search_filters_none. simpl. unfold Sql.fetch.
    by destruct (Sql.fits ((page - 1) * limit) && Sql.fits limit).
Qed.

Lemma search_book_miss_witness :
  Routers.search_book Samples.shelf None None None 1 10 = NoContent.
Proof.
  apply (search_book_miss Samples.shelf None None None 1 10).
  left. repeat (split; [reflexivity|]). reflexivity.
Defined.

(** C3 read for every pagination parameters fails: with
    no criterion, page [2 ^ 63 + 1] and limit [1] the search raises
    [OverflowError], not the 204 exception. *)
Lemma search_book_miss_counterexample :
  Routers.search_book Samples.shelf None None None (2 ^ 63 + 1) 1 =
    OverflowError ∧
  Routers.search_book Samples.shelf None None None (2 ^ 63 + 1) 1 ≠
    NoContent.
Proof.
  assert (H : Routers.search_book Samples.shelf None None None (2 ^ 63 + 1) 1 =
              OverflowError) by (vm_compute; reflexivity).
  split; [exact H|]. rewrite H. discriminate.
Qed.

(** ** Create, update, delete *)

Section table.
Implicit Types (database : gmap Z BookBase) (id : Z).

Lemma foldr_max_bound (k : Z) (ks : list Z) (j : Z) :
  j ∈ k :: ks → j ≤ foldr Z.max k ks.
Proof.
  induction ks as [|a ks IH]; simpl.
  - intros ->%list_elem_of_singleton. lia.
  - rewrite !elem_of_cons in *. intros [Hj|[Hj|Hj]].
    + assert (j ≤ foldr Z.max k ks) by (apply IH; by left). lia.
    + lia.
    + assert (j ≤ foldr Z.max k ks) by (apply IH; by right). lia.
Qed.

(** The identifier given to a new row is not in use. *)
Lemma next_id_fresh database : database !! Sql.next_id database = None.
Proof.
  destruct (database !! Sql.next_id database) as [b|] eqn:Hb; [|done].
  apply elem_of_map_to_list in Hb.
  apply (list_elem_of_fmap_2 fst) in Hb. simpl in Hb.
  unfold Sql.next_id in *.
  destruct ((map_to_list database).*1) as [|k ks]; [by inversion Hb|].
  apply foldr_max_bound in Hb. lia.
Qed.

Lemma str_min_length_1_inv (v : json) (s : string) :
  str_min_length_1 v = Valid s → v = JStr s ∧ s ≠ "".
Proof.
  destruct v as [| | | |s'|]; simpl; try discriminate.
  destruct s'; simpl; [discriminate|].
  intros [= <-]. done.
Qed.

(** Reading a row by its identifier. *)
Lemma get_Some database id (book : BookBase) :
  Sql.get database id = Ok (Some book) ↔ database !! id = Some book.
Proof.
  unfold Sql.get. destruct (database !! id) as [b|].
  - split; [by intros [= ->] | by intros [= ->]].
  - destruct (Sql.fits id); split; discriminate.
Qed.

Lemma get_None database id :
  Sql.get database id = Ok None ↔
  database !! id = None ∧ Sql.fits id = true.
Proof.
  unfold Sql.get. destruct (database !! id) as [b|].
  - split; [discriminate | by intros [[=] _]].
  - destruct (Sql.fits id); split; try done. by intros [_ [=]].
Qed.

Lemma get_OverflowError database id :
  Sql.get database id = OverflowError ↔
  database !! id = None ∧ Sql.fits id = false.
Proof.
  unfold Sql.get. destruct (database !! id) as [b|].
  - split; [discriminate | by intros [[=] _]].
  - destruct (Sql.fits id); split; try done. by intros [_ [=]].
Qed.

Lemma get_frame database database' id :
  database' !! id = database !! id → Sql.get database' id = Sql.get database id.
Proof. intros H. unfold Sql.get. by rewrite H. Qed.

(** What [BookCreate] lets through. *)
Lemma BookCreate_inv (body : Body) (book_request : BookBase) :
  BookCreate body = Valid book_request →
  body_title body = Some (JStr (title book_request)) ∧
  body_author body = Some (JStr (author book_request)) ∧
  title book_request ≠ "" ∧ author book_request ≠ "" ∧
  match body_year body with
  | None => year book_request = None
  | Some y => validate_year y = Valid (year book_request)
  end.
Proof.
  unfold BookCreate. destruct body as [t a y]. simpl.
  set (year' := match y with Some y0 => validate_year y0 | None => Valid None end).
  assert (Hyear : ∀ y', year' = Valid y' →
            match y with
            | None => y' = None
            | Some y0 => validate_year y0 = Valid y'
            end).
  { intros y'. subst year'. destruct y; [done | by intros [= <-]]. }
  destruct year' as [y'| |]; [|by repeat case_match|done].
  destruct t as [t|], a as [a|]; try discriminate.
  destruct (str_min_length_1 t) as [t'| |] eqn:Ht; try discriminate.
  destruct (str_min_length_1 a) as [a'| |] eqn:Ha; try discriminate.
  apply str_min_length_1_inv in Ht as [-> Ht], Ha as [-> Ha].
  intros [= <-]. simpl. specialize (Hyear y' eq_refl).
  repeat split; try done.
Qed.

End table.

(** C5: a valid create request (non-empty title and author, optional
    year) stores a row under an unused identifier, and reading that
    identifier back gives the title and author of the request and its
    year as validated: null when the request gave no year, null, [0],
    the empty string or the string ["0"], and [n] when it gave an
    integer [n] other than [0]. *)
Theorem create_then_read (database : gmap Z BookBase) (body : Body)
    (book_request : BookBase) :
  BookCreate body = Valid book_request →
  ∃ id stored,
    Routers.post_book database body =
      (<[id := stored]> database, Ok (id, stored)) ∧
    database !! id = None ∧
    Sql.get (Routers.post_book database body).1 id = Ok (Some stored) ∧
    body_title body = Some (JStr (title stored)) ∧
    body_author body = Some (JStr (author stored)) ∧
    (body_year body ∈
       [None; Some JNull; Some (JInt 0); Some (JStr ""); Some (JStr "0")] →
     year stored = None) ∧
    (∀ n, body_year body = Some (JInt n) → n ≠ 0 → year stored = Some n).
Proof.
  intros Hvalid. exists (Sql.next_id database), book_request.
  unfold Routers.post_book. rewrite Hvalid. simpl.
  apply BookCreate_inv in Hvalid as (Ht & Ha & _ & _ & Hy).
  split; [done|]. split; [apply next_id_fresh|].
  split; [apply get_Some, lookup_insert_eq|].
  split; [done|]. split; [done|]. split.
  - rewrite !elem_of_cons, elem_of_nil. intros [H|[H|[H|[H|[H|[]]]]]];
      rewrite H in Hy; unfold validate_year in Hy; simpl in Hy; congruence.
  - intros n Hn Hn0. rewrite Hn in Hy. unfold validate_year in Hy.
    simpl in Hy. destruct (Z.eqb_spec n 0); [done|]. simpl in Hy.
    by case_match; simplify_eq.
Qed.

Lemma create_then_read_witness :
  ∃ id stored,
    Routers.post_book Samples.shelf
      (mkBody (Some (JStr "Ulysses")) (Some (JStr "Joyce")) (Some (JInt 0))) =
      (<[id := stored]> Samples.shelf, Ok (id, stored)) ∧
    Samples.shelf !! id = None ∧
    Sql.get (Routers.post_book Samples.shelf
      (mkBody (Some (JStr "Ulysses")) (Some (JStr "Joyce")) (Some (JInt 0)))).1 id
      = Ok (Some stored) ∧
    Some (JStr "Ulysses") = Some (JStr (title stored)) ∧
    Some (JStr "Joyce") = Some (JStr (author stored)) ∧
    (Some (JInt 0) ∈
       [None; Some JNull; Some (JInt 0); Some (JStr ""); Some (JStr "0")] →
     year stored = None) ∧
    (∀ n, Some (JInt 0) = Some (JInt n) → n ≠ 0 → year stored = Some n).
Proof.
  apply (create_then_read Samples.shelf
           (mkBody (Some (JStr "Ulysses")) (Some (JStr "Joyce")) (Some (JInt 0)))
           (mkBook "Ulysses" "Joyce" None)).
  reflexivity.
Defined.

Section update.
Implicit Types (database : gmap Z BookBase) (id : Z).

Lemma field_absent {A} (validate : json → validated A) (v : option json)
    (a : option A) :
  field validate v = Valid a → (v = None ↔ a = None).
Proof.
  destruct v as [x|]; simpl.
  - destruct (validate x); try discriminate.
    intros [= <-]. split; discriminate.
  - by intros [= <-].
Qed.

(** A field that was not set keeps the row's value. *)
Lemma assign_unset {A} (old : A) : Routers.assign old None = old.
Proof. reflexivity. Qed.

Lemma update_book_table database (book_request : BookUpdateData) id j :
  j ≠ id →
  (Routers.update_book database book_request id).1 !! j = database !! j.
Proof.
  intros Hj. unfold Routers.update_book, Sql.get.
  destruct (database !! id) as [old|]; [|by destruct (Sql.fits id)].
  repeat case_match; simpl; try done. by rewrite lookup_insert_ne.
Qed.

Lemma put_book_table database (body : Body) id j :
  j ≠ id → (Routers.put_book database body id).1 !! j = database !! j.
Proof.
  intros Hj. unfold Routers.put_book.
  destruct (BookUpdate body); [by apply update_book_table | done | done].
Qed.

(** [update_book] on an existing row, field by field. *)
Lemma update_book_fields database id (old : BookBase) :
  database !! id = Some old →
  ∀ book_request : BookUpdateData,
  ∃ new,
    (Routers.update_book database book_request id).1 !! id = Some new ∧
    (set_title book_request = None → title new = title old) ∧
    (set_author book_request = None → author new = author old) ∧
    (set_year book_request = None → year new = year old) ∧
    (set_title book_request ≠ Some None →
     set_author book_request ≠ Some None →
     Routers.update_book database book_request id =
       (<[id := new]> database, Ok (id, new)) ∧
     (∀ t, set_title book_request = Some (Some t) → title new = t) ∧
     (∀ a, set_author book_request = Some (Some a) → author new = a) ∧
     (∀ y, set_year book_request = Some y → year new = y)).
Proof.
  intros Hold [st sa sy]. unfold Routers.update_book, Sql.get.
  rewrite Hold. simpl.
  destruct st as [[t|]|], sa as [[a|]|]; simpl;
    (eexists; split; [first [apply lookup_insert_eq | exact Hold]|]);
    simpl; repeat split; intros; simplify_eq; try done;
    by destruct sy.
Qed.

Lemma BookUpdate_inv (body : Body) (book_request : BookUpdateData) :
  BookUpdate body = Valid book_request →
  field optional_str (body_title body) = Valid (set_title book_request) ∧
  field optional_str (body_author body) = Valid (set_author book_request) ∧
  field validate_year (body_year body) = Valid (set_year book_request).
Proof.
  unfold BookUpdate. repeat case_match; try discriminate.
  by intros [= <-].
Qed.

End update.

(** C4: whatever the update request, the stored record keeps the value
    of every field the request leaves out, and no other record changes;
    a valid request that sets neither title nor author to null is
    carried out, and the fields it carries take the validated values.
    A request with only a title leaves author and year as they were. *)
Theorem update_is_partial (database : gmap Z BookBase) (book_id : Z)
    (old : BookBase) (body : Body) :
  Sql.get database book_id = Ok (Some old) →
  ∃ new,
    Sql.get (Routers.put_book database body book_id).1 book_id = Ok (Some new) ∧
    (body_title body = None → title new = title old) ∧
    (body_author body = None → author new = author old) ∧
    (body_year body = None → year new = year old) ∧
    (∀ j, j ≠ book_id →
       Sql.get (Routers.put_book database body book_id).1 j = Sql.get database j) ∧
    (∀ book_request, BookUpdate body = Valid book_request →
       set_title book_request ≠ Some None →
       set_author book_request ≠ Some None →
       Routers.put_book database body book_id =
         (<[book_id := new]> database, Ok (book_id, new)) ∧
       (∀ t, body_title body = Some (JStr t) → title new = t) ∧
       (∀ a, body_author body = Some (JStr a) → author new = a) ∧
       (∀ y, body_year body = Some y → validate_year y = Valid (year new))).
Proof.
  intros Hold%get_Some. unfold Routers.put_book.
  destruct (BookUpdate body) as [r| |] eqn:Hvalid.
  - apply BookUpdate_inv in Hvalid as (Hft & Hfa & Hfy).
    destruct (update_book_fields database book_id old Hold r)
      as (new & Hnew & Ht & Ha & Hy & Hok).
    exists new. split; [by apply get_Some|].
    split; [intros H; by apply Ht, (field_absent _ _ _ Hft)|].
    split; [intros H; by apply Ha, (field_absent _ _ _ Hfa)|].
    split; [intros H; by apply Hy, (field_absent _ _ _ Hfy)|].
    split; [intros j Hj; by apply get_frame, update_book_table|].
    intros ? [= <-] Hnt Hna.
    destruct (Hok Hnt Hna) as (Heq & Hst & Hsa & Hsy).
    split; [exact Heq|]. split; [|split].
    + intros t H. rewrite H in Hft. simpl in Hft. apply Hst. congruence.
    + intros a H. rewrite H in Hfa. simpl in Hfa. apply Hsa. congruence.
    + intros y H. rewrite H in Hfy. simpl in Hfy.
      destruct (validate_year y) as [v| |]; try discriminate.
      f_equal. symmetry. apply Hsy. congruence.
  - exists old. simpl. split; [by apply get_Some|]. repeat split; try done.
  - exists old. simpl. split; [by apply get_Some|]. repeat split; try done.
Qed.

Lemma update_is_partial_witness :
  ∃ new,
    Sql.get (Routers.put_book Samples.shelf (Samples.title_only "Emma, 2nd ed.") 2).1 2
      = Ok (Some new) ∧
    title new = "Emma, 2nd ed." ∧
    author new = author Samples.emma ∧
    year new = year Samples.emma.
Proof.
  destruct (update_is_partial Samples.shelf 2 Samples.emma
              (Samples.title_only "Emma, 2nd ed.") eq_refl)
    as (new & Hnew & _ & Ha & Hy & _ & Hok).
  exists new.
  destruct (Hok (mkUpdate (Some (Some "Emma, 2nd ed.")) None None) eq_refl)
    as (_ & Ht & _); [discriminate | discriminate |].
  split; [exact Hnew|].
  split; [apply Ht; reflexivity|].
  split; [apply Ha; reflexivity | apply Hy; reflexivity].
Defined.




(** ** Where validation lets a value through *)

(** C1: the create schema refuses an empty title, but the update schema
    accepts one, and [PUT] stores it: after the request the record read
    back has the empty string as its title. *)
Theorem update_stores_empty_title :
  BookCreate (mkBody (Some (JStr "")) (Some (JStr "Herbert")) None) = Invalid ∧
  BookUpdate (Samples.title_only "") =
    Valid (mkUpdate (Some (Some "")) None None) ∧
  Routers.put_book Samples.shelf (Samples.title_only "") 1 =
    (<[1 := mkBook "" "Herbert" None]> Samples.shelf,
     Ok (1, mkBook "" "Herbert" None)) ∧
  Sql.get (Routers.put_book Samples.shelf (Samples.title_only "") 1).1 1
    = Ok (Some (mkBook "" "Herbert" None)).
Proof. repeat split; by vm_compute. Qed.

(** The field validator turns into null every year that [int] reads as
    zero; a validated year of [0] can only come from a string that
    [int] refuses. *)
Lemma validate_year_zero_inv (v : json) :
  validate_year v = Valid (Some 0) →
  ∃ s, v = JStr s ∧ PyInt.int_of_str s = None.
Proof.
  assert (Hbounded : ∀ n, (n =? 0) = false →
    (if (0 <=? n) && (n <=? 2030) then Valid (Some n) else Invalid)
      ≠ Valid (Some 0)).
  { intros n Hn. case_match; [|done]. intros [= ->]. done. }
  unfold validate_year, zero_or_empty_to_none.
  destruct v as [|[]|n|[m e| |]|s|]; simpl; try done.
  - destruct (n =? 0) eqn:Hn; simpl; [done|]. intros H. by apply Hbounded in H.
  - destruct (PyInt.trunc m e =? 0) eqn:Hn; simpl; [done|].
    intros H. by apply Hbounded in H.
  - destruct s as [|c s]; [done|].
    destruct (PyInt.int_of_str (String c s)) as [iv|] eqn:Hint; [|by eauto].
    destruct (iv =? 0) eqn:Hn; simpl; [done|]. intros H. by apply Hbounded in H.
Qed.

(** C10: a create request whose year is the string ["0.0"] passes
    validation with year [0] and is stored with it; a search for the
    year [0] alone then matches that record and returns it in a page,
    where [BookRead] shows its year as null. *)
Theorem zero_year_is_stored_and_found :
  let body := mkBody (Some (JStr "Dune")) (Some (JStr "Herbert"))
                     (Some (JStr "0.0")) in
  let stored := mkBook "Dune" "Herbert" (Some 0) in
  zero_or_empty_to_none (JStr "0.0") = Valid (JStr "0.0") ∧
  BookCreate body = Valid stored ∧
  Routers.post_book ∅ body = (<[1 := stored]> ∅, Ok (1, stored)) ∧
  Sql.get (Routers.post_book ∅ body).1 1 = Ok (Some stored) ∧
  Routers.search_books (Routers.post_book ∅ body).1 None None (Some 0) 1 10 =
    Ok [(1, stored)] ∧
  Routers.search_book (Routers.post_book ∅ body).1 None None (Some 0) 1 10 =
    Ok (mkPage [(1, mkBook "Dune" "Herbert" None)] 1 10 1).
Proof. repeat split; by vm_compute. Qed.

(** ** Grade analyzer *)

Section grades.
Import Grades.
Implicit Types (students : list Student) (s : Student).

Lemma round_half_even_nonneg (num den : Z) :
  0 ≤ num → 0 < den → 0 ≤ round_half_even num den.
Proof.
  intros Hn Hd. unfold round_half_even.
  assert (0 ≤ num / den) by (apply Z.div_pos; lia).
  repeat case_match; lia.
Qed.

Lemma scaled_sign (a n e : Z) :
  0 < a → 0 < n → 0 ≤ (scaled a n e).1 ∧ 0 < (scaled a n e).2.
Proof.
  intros Ha Hn. unfold scaled. case_match; simpl.
  - assert (0 < 2 ^ e) by (apply Z.pow_pos_nonneg; lia). nia.
  - assert (0 < 2 ^ (- e)) by (apply Z.pow_pos_nonneg; lia). nia.
Qed.

Lemma true_div_nonneg (total n : Z) :
  0 ≤ total → 0 < n → 0 ≤ mant (true_div total n).
Proof.
  intros Hs Hn. destruct total as [|p|p]; simpl;
    [done| |by pose proof (Pos2Z.neg_is_neg p); lia].
  unfold true_div_pos.
  destruct (scaled (Z.pos p) n _) as [num0 den0].
  match goal with
  | |- context [scaled ?a ?b ?e] =>
      pose proof (scaled_sign a b e ltac:(lia) Hn) as [H1 H2];
      destruct (scaled a b e) as [num den]
  end.
  simpl in *. by apply round_half_even_nonneg.
Qed.

Lemma round1_nonneg (x : float) : 0 ≤ mant x → 0 ≤ round1 x.
Proof.
  intros Hx. unfold round1.
  assert (0 ≤ Z.sgn (mant x)) by lia.
  apply Z.mul_nonneg_nonneg; [done|]. case_match.
  - assert (0 ≤ 2 ^ expo x) by (apply Z.pow_nonneg; lia). nia.
  - apply round_half_even_nonneg; [lia|].
    apply Z.pow_pos_nonneg; lia.
Qed.

Lemma sum_nonneg (l : list Z) : valid_grades l = true → 0 ≤ sum l.
Proof.
  unfold sum. induction l as [|g l IH]; simpl; [done|].
  intros (Hg & Hl)%andb_prop. specialize (IH Hl).
  rewrite andb_true_iff, !Z.leb_le in Hg. lia.
Qed.

(** A real average is never negative. *)
Lemma mean1_nonneg (l : list Z) :
  l ≠ [] → valid_grades l = true → 0 ≤ mean1 l.
Proof.
  intros Hne Hv. unfold mean1.
  apply round1_nonneg, true_div_nonneg; [by apply sum_nonneg|].
  destruct l; [done|]. simpl. lia.
Qed.

(** The placeholder [[-1]] ranks at [-1.0]. *)
Lemma key_without_grades s : has_grades s = false → key s = -10.
Proof. intros H. unfold key. rewrite H. by vm_compute. Qed.

Lemma key_with_grades s :
  has_grades s = true → key s = mean1 (grades s).
Proof. intros H. unfold key. by rewrite H. Qed.

Lemma has_grades_nonempty s : has_grades s = true → grades s ≠ [].
Proof. unfold has_grades. by destruct (grades s). Qed.

Lemma valid_students_elem students s :
  valid_students students = true → s ∈ students →
  valid_grades (grades s) = true.
Proof.
  unfold valid_students. rewrite forallb_forall.
  intros H Hs. apply H. by apply list_elem_of_In.
Qed.

Lemma max_by_elem {A} (f : A → Z) (best : A) (rest : list A) :
  max_by f best rest ∈ best :: rest.
Proof.
  revert best. induction rest as [|x rest IH]; intros best; simpl.
  - left.
  - pose proof (IH (if f best <? f x then x else best)) as Hin.
    apply elem_of_cons in Hin as [Hin|Hin].
    + rewrite Hin. destruct (f best <? f x); [right; left | left].
    + right. by right.
Qed.

Lemma max_by_upper {A} (f : A → Z) (best : A) (rest : list A) (x : A) :
  x ∈ best :: rest → f x ≤ f (max_by f best rest).
Proof.
  revert best x. induction rest as [|y rest IH]; intros best x; simpl.
  - intros ->%list_elem_of_singleton. lia.
  - set (best' := if f best <? f y then y else best).
    assert (Hb : f best ≤ f best' ∧ f y ≤ f best')
      by (unfold best'; destruct (Z.ltb_spec (f best) (f y)); lia).
    assert (Hbest : f best' ≤ f (max_by f best' rest)) by (apply IH; left).
    intros [Hx|[Hx|Hx]%elem_of_cons]%elem_of_cons; subst; [lia|lia|].
    apply IH. by right.
Qed.

(** The names kept by [all_top_students], read off the records. *)
Lemma all_top_students_filter students (top_average : Z) :
  all_top_students students top_average =
    name <$> List.filter
      (λ s, has_grades s && (mean1 (grades s) =? top_average)) students.
Proof.
  unfold all_top_students, all_averages.
  induction students as [|s students IH]; simpl; [done|].
  destruct (has_grades s); simpl; [|exact IH].
  destruct (mean1 (grades s) =? top_average); simpl; [f_equal|]; exact IH.
Qed.

Lemma announce_not_raised (tops : list string) (top_average : Z) :
  tops ≠ [] → announce tops top_average ≠ Raised.
Proof. destruct tops as [|a [|b tops]]; done. Qed.

(** [add_grades] and [add_student] keep every grade within range. *)
Lemma add_grade_valid students (student_name : string) (grade : Z) :
  valid_students students = true →
  valid_students (add_grade students student_name grade) = true.
Proof.
  unfold add_grade. destruct ((0 <=? grade) && (grade <=? 100)) eqn:Hg; [|done].
  unfold valid_students. rewrite !forallb_forall. intros Hv s' Hin.
  apply list_elem_of_In, list_elem_of_fmap in Hin as (s & -> & Hs).
  apply list_elem_of_In, Hv in Hs.
  destruct (String.eqb (name s) student_name); simpl; [|done].
  unfold valid_grades in *. rewrite forallb_app, Hs. simpl.
  by rewrite Hg.
Qed.

Lemma add_student_valid students (student_name : string) :
  valid_students students = true →
  valid_students (add_student students student_name) = true.
Proof.
  unfold add_student. case_match; [done|]. intros Hv.
  unfold valid_students in *. by rewrite forallb_app, Hv.
Qed.

(** The records of a session never hold a grade out of range. *)
Lemma run_valid (session : list command) :
  valid_students (run session) = true.
Proof.
  unfold run. assert (Hnil : valid_students [] = true) by done.
  revert Hnil. generalize (@nil Student).
  induction session as [|c session IH]; intros students Hv; simpl; [done|].
  apply IH. destruct c; simpl; [by apply add_student_valid|].
  by apply add_grade_valid.
Qed.

End grades.

Section averages.
Import Grades.

Lemma round_half_even_le (num den bound : Z) :
  0 < den → num ≤ bound * den → round_half_even num den ≤ bound.
Proof.
  intros Hd Hn. unfold round_half_even.
  pose proof (Z.div_mod num den ltac:(lia)) as Hdiv.
  pose proof (Z.mod_pos_bound num den Hd) as Hmod.
  assert (num / den ≤ bound) by nia.
  repeat case_match; try lia; nia.
Qed.

Lemma round_half_even_exact (q den : Z) :
  0 < den → round_half_even (q * den) den = q.
Proof.
  intros Hd. unfold round_half_even.
  rewrite Z.div_mul, Z.mod_mul by lia.
  case_match; [done | lia].
Qed.

Lemma sum_upper (l : list Z) :
  valid_grades l = true → sum l ≤ 100 * Z.of_nat (length l).
Proof.
  unfold sum. induction l as [|g l IH]; [done|].
  cbn [valid_grades forallb foldr length].
  intros (Hg & Hl)%andb_prop. specialize (IH Hl).
  rewrite andb_true_iff, !Z.leb_le in Hg. lia.
Qed.

(** A quotient of at most [100] has its mantissa scaled up by at
    least [2 ^ 45]. *)
Lemma true_div_pos_small (a n : Z) :
  0 < a → 0 < n → a ≤ 100 * n →
  ∃ e, e ≤ - 45 ∧
       true_div_pos a n = mkFloat (round_half_even (a * 2 ^ (- e)) n) e.
Proof.
  intros Ha Hn Hle. unfold true_div_pos.
  assert (He0 : Z.log2 a - Z.log2 n - 52 ≤ - 45).
  { assert (Z.log2 a ≤ Z.log2 (n * 2 ^ 7)) by (apply Z.log2_le_mono; lia).
    rewrite Z.log2_mul_pow2 in * by lia. lia. }
  destruct (scaled a n (Z.log2 a - Z.log2 n - 52)) as [num0 den0].
  set (e := if 2 ^ 52 <=? num0 / den0
            then Z.log2 a - Z.log2 n - 52
            else Z.log2 a - Z.log2 n - 52 - 1).
  assert (He : e ≤ - 45) by (unfold e; case_match; lia).
  exists e. split; [done|]. unfold scaled.
  destruct (Z.leb_spec 0 e); [lia | done].
Qed.

(** The nearest integer is within a half of the fraction. *)
Lemma round_half_even_close (num den : Z) :
  0 < den → 2 * Z.abs (round_half_even num den * den - num) ≤ den.
Proof.
  intros Hd. unfold round_half_even.
  pose proof (Z.div_mod num den ltac:(lia)) as Hdiv.
  pose proof (Z.mod_pos_bound num den Hd) as Hmod.
  destruct (Z.ltb_spec (2 * (num mod den)) den);
    [|destruct (Z.ltb_spec den (2 * (num mod den)));
      [|destruct (Z.even (num / den))]]; nia.
Qed.

(** [calculate_average] rounds to one decimal: the result, in tenths,
    differs from ten times the exact mean by no more than a half, and
    [5 / 2 ^ 45] for the division done in binary64. *)
Lemma mean1_close (l : list Z) :
  l ≠ [] → valid_grades l = true →
  2 ^ 46 * Z.abs (mean1 l * Z.of_nat (length l) - 10 * sum l) ≤
    (2 ^ 45 + 10) * Z.of_nat (length l).
Proof.
  intros Hne Hv. unfold mean1.
  pose proof (sum_nonneg l Hv) as Hs0. pose proof (sum_upper l Hv) as Hs.
  assert (Hn : 0 < Z.of_nat (length l)) by (destruct l; [done | simpl; lia]).
  set (n := Z.of_nat (length l)) in *.
  destruct (sum l) as [|p|p] eqn:Hsum; [vm_compute Z.abs; cbn; lia| |lia].
  cbn [true_div].
  destruct (true_div_pos_small (Z.pos p) _ ltac:(lia) Hn Hs) as (e & He & ->).
  assert (Hpow : 2 ^ 45 ≤ 2 ^ (- e)) by (apply Z.pow_le_mono_r; lia).
  set (P := 2 ^ (- e)) in *.
  set (m := round_half_even (Z.pos p * P) n).
  assert (Hm0 : 0 ≤ m) by (apply round_half_even_nonneg; nia).
  pose proof (round_half_even_close (Z.pos p * P) n Hn) as Hm. fold m in Hm.
  unfold round1. cbn [mant expo].
  destruct (Z.leb_spec 0 e); [lia|]. fold P.
  rewrite (Z.abs_eq m) by done.
  pose proof (round_half_even_close (10 * m) P ltac:(lia)) as Ht.
  assert (Ht0 : 0 ≤ round_half_even (10 * m) P)
    by (apply round_half_even_nonneg; lia).
  set (t := round_half_even (10 * m) P) in *.
  assert (Hsgn : Z.sgn m * t = t).
  { destruct (Z.eq_dec m 0) as [Hz|Hz].
    - assert (t = 0); [|lia]. subst t. rewrite Hz. simpl.
      unfold round_half_even. rewrite Z.div_0_l, Z.mod_0_l by lia.
      destruct (Z.ltb_spec (2 * 0) P); lia.
    - rewrite Z.sgn_pos by lia. lia. }
  rewrite Hsgn.
  assert (Hx : 2 * P * Z.abs (t * n - 10 * Z.pos p) ≤ (P + 10) * n) by nia.
  set (X := Z.abs (t * n - 10 * Z.pos p)) in *.
  assert (0 ≤ X) by (subst X; lia).
  apply (Z.mul_le_mono_pos_l _ _ P); [lia|]. nia.
Qed.

Lemma mean1_upper (l : list Z) :
  l ≠ [] → valid_grades l = true → mean1 l ≤ 1000.
Proof.
  intros Hne Hv. unfold mean1.
  pose proof (sum_nonneg l Hv) as Hs0. pose proof (sum_upper l Hv) as Hs.
  assert (Hn : 0 < Z.of_nat (length l)) by (destruct l; [done | simpl; lia]).
  destruct (sum l) as [|p|p] eqn:Hsum; [done| |lia]. cbn [true_div].
  destruct (true_div_pos_small (Z.pos p) _ ltac:(lia) Hn Hs) as (e & He & ->).
  assert (Hpow : 0 < 2 ^ (- e)) by (apply Z.pow_pos_nonneg; lia).
  set (m := round_half_even _ _).
  assert (Hm0 : 0 ≤ m) by (apply round_half_even_nonneg; nia).
  assert (Hm : m ≤ 100 * 2 ^ (- e)) by (apply round_half_even_le; nia).
  unfold round1. cbn [mant expo].
  destruct (Z.leb_spec 0 e); [lia|].
  assert (round_half_even (10 * Z.abs m) (2 ^ (- e)) ≤ 1000)
    by (apply round_half_even_le; lia).
  assert (0 ≤ round_half_even (10 * Z.abs m) (2 ^ (- e)))
    by (apply round_half_even_nonneg; lia).
  destruct m; simpl Z.sgn; lia.
Qed.

Lemma mean1_exact (l : list Z) (g : Z) :
  l ≠ [] → 0 ≤ g ≤ 100 → sum l = g * Z.of_nat (length l) → mean1 l = 10 * g.
Proof.
  intros Hne Hg Hsum. unfold mean1. rewrite Hsum.
  assert (Hn : 0 < Z.of_nat (length l)) by (destruct l; [done | simpl; lia]).
  destruct (Z.eq_dec g 0) as [->|Hg0]; [done|].
  destruct (g * Z.of_nat (length l)) as [|p|p] eqn:Hprod; [nia| |nia].
  cbn [true_div].
  destruct (true_div_pos_small (Z.pos p) _ ltac:(lia) Hn ltac:(nia))
    as (e & He & ->).
  assert (Hpow : 0 < 2 ^ (- e)) by (apply Z.pow_pos_nonneg; lia).
  rewrite <-Hprod.
  replace (g * Z.of_nat (length l) * 2 ^ (- e))
    with (g * 2 ^ (- e) * Z.of_nat (length l)) by lia.
  rewrite round_half_even_exact by done.
  unfold round1. cbn [mant expo].
  destruct (Z.leb_spec 0 e); [lia|].
  rewrite Z.abs_eq by nia.
  replace (10 * (g * 2 ^ (- e))) with (10 * g * 2 ^ (- e)) by lia.
  rewrite round_half_even_exact by done.
  rewrite Z.sgn_pos by nia. lia.
Qed.

End averages.

(** ** The names that are printed *)

Section names_of_tops.
Import Grades.

Lemma string_app_assoc (a b c : string) : (a ++ b) ++ c = a ++ b ++ c.
Proof.
  induction a as [|x a IH]; [done|].
  change (String x ((a ++ b) ++ c) = String x (a ++ b ++ c)). by rewrite IH.
Qed.

Lemma string_app_nil_r (a : string) : a ++ "" = a.
Proof.
  induction a as [|x a IH]; [done|].
  change (String x (a ++ "") = String x a). by rewrite IH.
Qed.

(** [join] is the library's concatenation with a separator. *)
Lemma join_concat (names : list string) : join names = String.concat ", " names.
Proof.
  induction names as [|n names IH]; [done|].
  destruct names as [|n' names]; [done|].
  change (n ++ ", " ++ join (n' :: names) =
          n ++ ", " ++ String.concat ", " (n' :: names)).
  by rewrite IH.
Qed.

(** Every joined name can be read in the result. *)
Lemma concat_occurs (sep : string) (names : list string) (n : string) :
  n ∈ names →
  ∃ before after, String.concat sep names = before ++ n ++ after.
Proof.
  induction names as [|x names IH]; [by intros ?%elem_of_nil|].
  intros [->|Hn]%elem_of_cons.
  - destruct names as [|y names].
    + exists "", "". simpl. by rewrite string_app_nil_r.
    + exists "", (sep ++ String.concat sep (y :: names)). reflexivity.
  - destruct names as [|y names]; [by apply elem_of_nil in Hn|].
    destruct (IH Hn) as (before & after & Heq).
    exists (x ++ sep ++ before), after.
    change (x ++ sep ++ String.concat sep (y :: names) =
            (x ++ sep ++ before) ++ n ++ after).
    rewrite Heq. by rewrite !string_app_assoc.
Qed.

Lemma names_of_tops_occurs (names : list string) (n : string) :
  n ∈ names →
  ∃ before after,
    String.concat ", " (removelast names) ++ " and " ++ List.last names "" =
      before ++ n ++ after.
Proof.
  intros Hn.
  assert (Hne : names ≠ []) by (intros ->; by apply elem_of_nil in Hn).
  rewrite (app_removelast_last "" Hne) in Hn.
  apply elem_of_app in Hn as [Hn | ->%list_elem_of_singleton].
  - destruct (concat_occurs ", " _ _ Hn) as (before & after & ->).
    exists before, (after ++ " and " ++ List.last names "").
    by rewrite !string_app_assoc.
  - exists (String.concat ", " (removelast names) ++ " and "), "".
    by rewrite string_app_nil_r, !string_app_assoc.
Qed.

(** What [announce] prints for one name and for several. *)
Lemma announce_names (names : list string) (top_average : Z) :
  (∀ student, names = [student] →
     announce names top_average = TopOne student top_average) ∧
  ((2 ≤ length names)%nat →
     announce names top_average =
       TopMany (String.concat ", " (removelast names) ++ " and " ++
                List.last names "") top_average).
Proof.
  split.
  - by intros student ->.
  - intros Hlen. destruct names as [|a [|b names]]; simpl in Hlen; [lia|lia|].
    unfold announce. by rewrite join_concat.
Qed.

End names_of_tops.

(** C7: on a list of students whose grades lie in [0, 100], as the
    records of every session do, with at least one graded student:
    each average is the mean rounded to one decimal, [top_performer]
    reports every graded student whose average equals the largest such
    average, all of them together by name and in the order of the
    records, and a student without grades ranks strictly below every
    graded one and is never among those reported. *)
Theorem top_performer_reports_all_tied (students : list Grades.Student) :
  Grades.valid_students students = true →
  Grades.any_grades students = true →
  ∃ top_average,
    (∃ s, s ∈ students ∧ Grades.has_grades s = true ∧
          Grades.calculate_average (Grades.grades s) = Some top_average) ∧
    (∀ s, s ∈ students → Grades.has_grades s = true →
          Grades.mean1 (Grades.grades s) ≤ top_average) ∧
    (∀ s, s ∈ students → Grades.has_grades s = true →
          let n := Z.of_nat (length (Grades.grades s)) in
          2 ^ 46 * Z.abs (Grades.mean1 (Grades.grades s) * n -
                          10 * Grades.sum (Grades.grades s)) ≤
            (2 ^ 45 + 10) * n) ∧
    (∀ s s', s ∈ students → s' ∈ students →
          Grades.has_grades s = false → Grades.has_grades s' = true →
          Grades.key s < Grades.key s') ∧
    let tops :=
      List.filter
        (λ s, Grades.has_grades s &&
              (Grades.mean1 (Grades.grades s) =? top_average)) students in
    let names := Grades.name <$> tops in
    tops ≠ [] ∧
    (∀ student, names = [student] →
       Grades.top_performer students = Grades.TopOne student top_average) ∧
    ((2 ≤ length names)%nat →
       ∃ names_of_tops,
         Grades.top_performer students =
           Grades.TopMany names_of_tops top_average ∧
         names_of_tops =
           String.concat ", " (removelast names) ++ " and " ++
           List.last names "" ∧
         ∀ n, n ∈ names →
           ∃ before after, names_of_tops = before ++ n ++ after) ∧
    Grades.top_performer students ≠ Grades.Raised.
Proof.
  intros Hv Hany.
  destruct students as [|first rest]; [done|].
  set (students := first :: rest) in *.
  set (top := Grades.max_by Grades.key first rest).
  assert (Hgraded : ∀ s, s ∈ students → Grades.has_grades s = true →
            0 ≤ Grades.key s ∧ Grades.key s = Grades.mean1 (Grades.grades s)).
  { intros s Hs Hg. rewrite key_with_grades by done. split; [|done].
    apply mean1_nonneg; [by apply has_grades_nonempty|].
    by apply (valid_students_elem students). }
  assert (Htop_in : top ∈ students) by apply max_by_elem.
  assert (Htop_max : ∀ s, s ∈ students → Grades.key s ≤ Grades.key top)
    by (intros s Hs; by apply max_by_upper).
  assert (Htop : Grades.has_grades top = true).
  { apply existsb_exists in Hany as (s0 & Hs0%list_elem_of_In & Hg0).
    destruct (Grades.has_grades top) eqn:Hg; [done|].
    pose proof (key_without_grades top Hg).
    pose proof (Hgraded s0 Hs0 Hg0) as [? _].
    pose proof (Htop_max s0 Hs0). lia. }
  assert (Havg : Grades.calculate_average (Grades.grades top) =
                 Some (Grades.mean1 (Grades.grades top))).
  { apply has_grades_nonempty in Htop. unfold Grades.calculate_average.
    by destruct (Grades.grades top). }
  exists (Grades.mean1 (Grades.grades top)).
  assert (Htops : List.filter
    (λ s, Grades.has_grades s &&
          (Grades.mean1 (Grades.grades s) =? Grades.mean1 (Grades.grades top)))
    students ≠ []).
  { intros Hnil. assert (Hin : In top []); [|done]. rewrite <-Hnil.
    apply filter_In. split; [by apply list_elem_of_In|].
    by rewrite Htop, Z.eqb_refl. }
  assert (Hreport : Grades.top_performer students =
    Grades.announce (Grades.all_top_students students
                       (Grades.mean1 (Grades.grades top)))
                    (Grades.mean1 (Grades.grades top))).
  { unfold Grades.top_performer, students. fold students. rewrite Hany.
    fold top. by rewrite Havg. }
  rewrite all_top_students_filter in Hreport.
  split; [by exists top|]. split.
  { intros s Hs Hg. destruct (Hgraded s Hs Hg) as [_ <-].
    destruct (Hgraded top Htop_in Htop) as [_ <-]. by apply Htop_max. }
  split.
  { intros s Hs Hg. cbv zeta.
    apply mean1_close; [by apply has_grades_nonempty|].
    by apply (valid_students_elem students). }
  split.
  { intros s s' _ Hs' Hg Hg'. rewrite (key_without_grades s Hg).
    destruct (Hgraded s' Hs' Hg'). lia. }
  cbv zeta. split; [exact Htops|].
  destruct (announce_names
              (Grades.name <$> List.filter
                 (λ s, Grades.has_grades s &&
                       (Grades.mean1 (Grades.grades s) =?
                        Grades.mean1 (Grades.grades top))) students)
              (Grades.mean1 (Grades.grades top))) as [Hone Hmany].
  split; [intros student Hnames; rewrite Hreport; by apply Hone|].
  split.
  { intros Hlen. eexists. split; [rewrite Hreport; by apply Hmany|].
    split; [reflexivity|]. intros n Hn. by apply names_of_tops_occurs. }
  rewrite Hreport. apply announce_not_raised.
  intros Hnil%fmap_nil_inv. by apply Htops.
Qed.

(** Alice with 90 and 80 and Bob with 85 twice, the records of a
    session, both average 85.0 and are reported together. *)
Lemma top_performer_reports_all_tied_witness :
  Grades.run Samples.alice_bob_session = Samples.alice_bob ∧
  Grades.top_performer Samples.alice_bob = Grades.TopMany "Alice and Bob" 850 ∧
  Grades.top_performer Samples.alice_bob ≠ Grades.Raised ∧
  ∃ top_average,
    ∀ s, s ∈ Samples.alice_bob → Grades.has_grades s = true →
         Grades.mean1 (Grades.grades s) ≤ top_average.
Proof.
  split; [vm_compute; reflexivity|]. split; [vm_compute; reflexivity|].
  destruct (top_performer_reports_all_tied Samples.alice_bob eq_refl eq_refl)
    as (top_average & _ & Hmax & _ & _ & _ & _ & _ & Hnot).
  split; [exact Hnot|]. exists top_average. exact Hmax.
Defined.

(** C7 read for every list of students fails: Ben's one
    grade of [-5] averages below the [-1.0] that stands for no grades,
    so Ann, who has no grades, is the student selected, and taking her
    average raises [ZeroDivisionError]. *)
Lemma top_performer_reports_all_tied_counterexample :
  let ann := Grades.mkStudent "Ann" [] in
  let ben := Grades.mkStudent "Ben" [-5] in
  Grades.any_grades [ann; ben] = true ∧
  Grades.has_grades ann = false ∧
  Grades.has_grades ben = true ∧
  Grades.key ben < Grades.key ann ∧
  Grades.max_by Grades.key ann [ben] = ann ∧
  Grades.calculate_average (Grades.grades ann) = None ∧
  Grades.top_performer [ann; ben] = Grades.Raised.
Proof. repeat split; by vm_compute. Qed.

(** ** Worked examples *)

Example compute_offset_page_3 : compute_offset 3 10 = 20.
Proof. reflexivity. Qed.

Example clamp_limit_40 : clamp_limit 40 25 = 25.
Proof. reflexivity. Qed.

Example year_of_zeros : validate_year (JStr "0000") = Valid None.
Proof. reflexivity. Qed.

Example year_out_of_range : validate_year (JInt 2031) = Invalid.
Proof. reflexivity. Qed.

Example search_dune_ignores_case :
  Routers.search_book Samples.shelf (Some "dune") None None 1 10 =
    Ok (mkPage [(1, Samples.dune)] 1 10 1).
Proof. by vm_compute. Qed.

Example search_title_and_year :
  Routers.search_book Samples.shelf (Some "m") None (Some 1815) 1 10 =
    Ok (mkPage [(2, Samples.emma)] 1 10 1).
Proof. by vm_compute. Qed.

Example update_null_title_fails :
  Routers.put_book Samples.shelf (mkBody (Some JNull) None None) 1 =
    (Samples.shelf, StoreFailure).
Proof. by vm_compute. Qed.

(** [1691 / 20] is the float just below [84.55]: it rounds to [84.5]. *)
Example average_rounds_the_float :
  Grades.round1 (Grades.true_div 1691 20) = 845 ∧
  Grades.mean1 [90; 80] = 850 ∧ Grades.mean1 [-1] = -10.
Proof. by vm_compute. Qed.

Example class_of_four_top :
  Grades.top_performer Samples.class_of_four = Grades.TopMany "Ben and Cy" 705.
Proof. by vm_compute. Qed.

Example only_ungraded :
  Grades.top_performer [Grades.mkStudent "Ann" []] = Grades.NoGrades.
Proof. by vm_compute. Qed.

(** A mean that lies halfway between two tenths goes to the even one:
    [85.25] to [85.2] and [85.75] to [85.8]. *)
Example mean_halfway_down : Grades.mean1 [85; 85; 85; 86] = 852.
Proof. by vm_compute. Qed.

Example mean_halfway_up : Grades.mean1 [86; 86; 86; 85] = 858.
Proof. by vm_compute. Qed.

(** A year written as a float is cut to an integer by the field
    validator; an infinite one makes it raise. *)
Example year_of_float :
  validate_year (JFloat (Finite 3999 (-1))) = Valid (Some 1999) ∧
  validate_year (JFloat (Finite 1 (-1))) = Valid None ∧
  validate_year (JFloat Infinite) = Overflowed ∧
  validate_year (JFloat NotANumber) = Invalid.
Proof. repeat split; by vm_compute. Qed.

(** The listing after the update of C1: the row with the empty title
    is stored, and [PaginatedBook] refuses it. *)
Example listing_after_empty_title :
  Routers.read_all_books
    (Routers.put_book Samples.shelf (Samples.title_only "") 1).1 1 10 =
    ValidationError.
Proof. by vm_compute. Qed.

(** * Further properties of the code *)

(** ** Pages of the listing *)

Section pages.
Implicit Types (database : gmap Z BookBase) (rows : list BookRead).

Lemma window_sublist (n m : Z) rows :
  Sql.window m n (Sql.order_by_id rows) `sublist_of` Sql.order_by_id rows.
Proof.
  unfold Sql.window. case_match; [apply sublist_drop|].
  etrans; [apply sublist_take | apply sublist_drop].
Qed.

(** Whatever the window, its rows come from [rows] and keep distinct
    identifiers. *)
Lemma window_rows (n m : Z) rows :
  NoDup rows.*1 →
  NoDup (Sql.window m n (Sql.order_by_id rows)).*1 ∧
  ∀ b, b ∈ Sql.window m n (Sql.order_by_id rows) → b ∈ rows.
Proof.
  intros Hnd. pose proof (window_sublist n m rows) as Hsub. split.
  - eapply sublist_NoDup; [|by apply fmap_sublist].
    by rewrite order_by_id_perm.
  - intros b Hb. apply sublist_subseteq in Hsub.
    rewrite <-(order_by_id_perm rows). by apply Hsub.
Qed.

Lemma get_books_rows database (page limit : Z) (fetched : list BookRead) :
  Books.get_books database page limit = Ok fetched →
  NoDup fetched.*1 ∧ ∀ b, b ∈ fetched → b ∈ Sql.select database.
Proof.
  intros (_ & _ & ->)%fetch_Ok.
  apply window_rows, NoDup_fst_map_to_list.
Qed.

Lemma get_books_page_nat database (p : nat) (limit : Z) :
  1 ≤ limit → Z.of_nat (S p) * limit < 2 ^ 63 →
  Books.get_books database (Z.of_nat (S p)) limit =
    Ok (take (Z.to_nat limit)
          (drop (p * Z.to_nat limit) (Sql.order_by_id (Sql.select database)))).
Proof.
  intros Hl Hfits. rewrite get_books_window.
  - do 3 f_equal. unfold compute_offset.
    replace (Z.of_nat (S p) - 1) with (Z.of_nat p) by lia.
    rewrite Z2Nat.inj_mul by lia. by rewrite Nat2Z.id.
  - lia.
  - apply fits_spec. unfold compute_offset. nia.
  - apply fits_spec. nia.
Qed.

Lemma shown_rows_ids (rows : list BookRead) :
  ((λ row : BookRead, (row.1, shown row.2)) <$> rows).*1 = rows.*1.
Proof. rewrite <-list_fmap_compose. by apply list_fmap_ext. Qed.

End pages.

(** X1: with [limit >= 1] and [n * limit] below [2 ^ 63], each of the
    pages [1] to [n] is fetched, and laid end to end they are the first
    [n * limit] rows of the table in ascending order of identifier; once
    [n * limit] reaches the row count they hold every row of the table
    exactly once. *)
Theorem pages_tile_the_table (database : gmap Z BookBase) (limit : Z) (n : nat) :
  1 ≤ limit → Z.of_nat n * limit < 2 ^ 63 →
  ∃ pages : list (list BookRead),
    Forall2 (λ (p : nat) fetched,
               Books.get_books database (Z.of_nat p) limit = Ok fetched)
            (seq 1 n) pages ∧
    concat pages =
      take (n * Z.to_nat limit) (Sql.order_by_id (Sql.select database)) ∧
    (Books.total_books database ≤ Z.of_nat n * limit →
     concat pages ≡ₚ map_to_list database).
Proof.
  intros Hl Hfits.
  set (ordered := Sql.order_by_id (Sql.select database)).
  set (f := λ p : nat, take (Z.to_nat limit) (drop (p * Z.to_nat limit) ordered)).
  assert (Htile : ∀ m, concat (f <$> seq 0 m) = take (m * Z.to_nat limit) ordered).
  { induction m as [|m IH]; [done|].
    rewrite seq_S, fmap_app, concat_app, IH. simpl.
    rewrite app_nil_r. unfold f. rewrite take_take_drop. f_equal. lia. }
  exists (f <$> seq 0 n). split; [|split].
  - rewrite <-fmap_S_seq. apply Forall2_fmap, Forall_Forall2_diag.
    apply Forall_forall. intros p Hp%elem_of_seq.
    apply get_books_page_nat; [done|]. nia.
  - apply Htile.
  - intros Hall. rewrite Htile, take_ge; [apply order_by_id_perm|].
    subst ordered. rewrite order_by_id_length.
    unfold Books.total_books in Hall. nia.
Qed.

Lemma pages_tile_the_table_witness :
  1 ≤ 1 ∧ Books.total_books Samples.shelf ≤ Z.of_nat 2 * 1 ∧
  ∃ pages : list (list BookRead),
    Forall2 (λ (p : nat) fetched,
               Books.get_books Samples.shelf (Z.of_nat p) 1 = Ok fetched)
            (seq 1 2) pages ∧
    concat pages ≡ₚ map_to_list Samples.shelf.
Proof.
  assert (H : Books.total_books Samples.shelf ≤ Z.of_nat 2 * 1)
    by (vm_compute; discriminate).
  split; [lia|]. split; [exact H|].
  destruct (pages_tile_the_table Samples.shelf 1 2) as (pages & Hp & _ & Hall);
    [lia | reflexivity |].
  exists pages. split; [exact Hp | exact (Hall H)].
Defined.

(** X2: for [page >= 1] and [limit >= 1] with an offset and a limit
    that fit in 64 bits, the listing raises 204 exactly when the offset
    has reached the number of rows; otherwise rows are fetched, and it
    returns the page of these rows as [BookRead] shows them, or raises
    [ValidationError] when [BookRead] refuses one of them. *)
Theorem paginate_books_no_content_iff
    (database : gmap Z BookBase) (page limit : Z) :
  1 ≤ page → 1 ≤ limit →
  Sql.fits (compute_offset page limit) = true → Sql.fits limit = true →
  (Books.paginate_books database page limit = NoContent ↔
   Books.total_books database ≤ compute_offset page limit) ∧
  (compute_offset page limit < Books.total_books database →
   ∃ fetched,
     Books.get_books database page limit = Ok fetched ∧ fetched ≠ [] ∧
     Books.paginate_books database page limit =
       if forallb (λ row : BookRead, presentable row.2) fetched
       then Ok (mkPage ((λ row : BookRead, (row.1, shown row.2)) <$> fetched)
                  page (Z.min limit 25) (Books.total_books database))
       else ValidationError).
Proof.
  intros Hp Hl Hfo Hfl.
  assert (Hf := get_books_window database page limit ltac:(lia) Hfo Hfl).
  pose proof (get_books_length _ _ _ _ Hp Hl Hf) as Hlen.
  set (fetched := take _ _) in *.
  assert (Hcases : Books.paginate_books database page limit =
            match fetched with
            | [] => NoContent
            | _ =>
              if forallb (λ row : BookRead, presentable row.2) fetched
              then Ok (mkPage ((λ row : BookRead, (row.1, shown row.2)) <$> fetched)
                        page (Z.min limit 25) (Books.total_books database))
              else ValidationError
            end).
  { unfold Books.paginate_books. rewrite Hf. simpl. unfold Books.page_of.
    destruct fetched as [|row rows] eqn:Hfetched; [done|].
    unfold clamp_limit. apply built_page. }
  rewrite Hcases. destruct fetched as [|row rows] eqn:Hfetched; simpl in Hlen.
  - split; [split; [lia | done]|]. lia.
  - split.
    + split; [|lia]. by case_match.
    + intros _. by exists (row :: rows).
Qed.

Lemma paginate_books_no_content_iff_witness :
  Books.paginate_books Samples.shelf 3 1 = NoContent ∧
  ∃ fetched,
    Books.get_books Samples.shelf 2 1 = Ok fetched ∧ fetched ≠ [] ∧
    Books.paginate_books Samples.shelf 2 1 =
      if forallb (λ row : BookRead, presentable row.2) fetched
      then Ok (mkPage ((λ row : BookRead, (row.1, shown row.2)) <$> fetched)
                 2 (Z.min 1 25) (Books.total_books Samples.shelf))
      else ValidationError.
Proof.
  split.
  - apply (paginate_books_no_content_iff Samples.shelf 3 1);
      [lia | lia | reflexivity | reflexivity |].
    vm_compute. discriminate.
  - apply (paginate_books_no_content_iff Samples.shelf 2 1);
      [lia | lia | reflexivity | reflexivity |].
    vm_compute. reflexivity.
Defined.

(** X3: a page returned by the listing, for any [page] and [limit],
    reports the number of rows of the whole table as [total], and its
    books are rows of the table as [BookRead] shows them (a year [0] as
    null), each at most once; [BookRead] accepts each of these rows. *)
Theorem listed_books_are_stored
    (database : gmap Z BookBase) (page limit : Z) (result : PaginatedBook) :
  Books.paginate_books database page limit = Ok result →
  total result = Z.of_nat (size database) ∧
  Schemas.page result = page ∧
  books result ≠ [] ∧
  NoDup (books result).*1 ∧
  ∀ id book, (id, book) ∈ books result →
    ∃ stored, Sql.get database id = Ok (Some stored) ∧
              presentable stored = true ∧ book = shown stored.
Proof.
  intros (fetched & Hf & Hne & Hpres & ->)%paginate_books_Ok.
  cbn [books total Schemas.page].
  destruct (get_books_rows _ _ _ _ Hf) as [Hnd Hin].
  split; [unfold Books.total_books, Sql.select; f_equal;
          apply length_map_to_list|].
  split; [done|]. split; [by destruct fetched|].
  split; [by rewrite shown_rows_ids|].
  intros id book ([id' stored] & [= -> ->] & Hb)%list_elem_of_fmap.
  exists stored. split; [|split; [|done]].
  - apply get_Some. by apply elem_of_map_to_list, Hin.
  - rewrite forallb_forall in Hpres.
    by apply (Hpres (id', stored)), list_elem_of_In.
Qed.

Lemma listed_books_are_stored_witness :
  ∃ result, Books.paginate_books Samples.shelf 1 10 = Ok result ∧
            total result = Z.of_nat (size Samples.shelf) ∧
            NoDup (books result).*1.
Proof.
  eexists. split; [vm_compute; reflexivity|].
  match goal with
  | |- context [total ?r] =>
      destruct (listed_books_are_stored Samples.shelf 1 10 r eq_refl)
        as (Ht & _ & _ & Hnd & _)
  end.
  split; [exact Ht | exact Hnd].
Defined.

(** X4: behind the route's constraints the listing cannot show the gap
    between fetched and reported limit: a page answered by [GET /books/]
    reports the limit that was asked for, which is at most 25, and holds
    between one and that many books. *)
Theorem list_route_reports_requested_limit
    (database : gmap Z BookBase) (page limit : Z) (result : PaginatedBook) :
  Api.list_route database page limit = Ok result →
  1 ≤ page ∧ 1 ≤ limit ≤ 25 ∧
  Schemas.limit result = limit ∧
  Schemas.page result = page ∧
  1 ≤ Z.of_nat (length (books result)) ≤ limit.
Proof.
  unfold Api.list_route, Routers.page_query, Routers.read_all_books.
  destruct (1 <=? page) eqn:Hp; [|done].
  destruct (1 <=? limit) eqn:Hl1; [|done].
  destruct (limit <=? 25) eqn:Hl2; [|done]. simpl.
  apply Z.leb_le in Hp, Hl1, Hl2.
  intros (fetched & Hf & Hne & _ & ->)%paginate_books_Ok.
  pose proof (get_books_length _ _ _ _ Hp Hl1 Hf) as Hlen.
  cbn [books Schemas.limit Schemas.page]. rewrite length_fmap.
  destruct fetched; [done|]. simpl length in *. lia.
Qed.

Lemma list_route_reports_requested_limit_witness :
  ∃ result, Api.list_route Samples.long_shelf 2 10 = Ok result ∧
            Schemas.limit result = 10 ∧
            1 ≤ Z.of_nat (length (books result)) ≤ 10.
Proof.
  eexists. split; [vm_compute; reflexivity|].
  match goal with
  | |- context [Schemas.limit ?r] =>
      destruct (list_route_reports_requested_limit
                  Samples.long_shelf 2 10 r eq_refl)
        as (_ & _ & Hlimit & _ & Hlen)
  end.
  split; [exact Hlimit | exact Hlen].
Defined.

(** X5: the listing of lecture 6 differs from the one of lecture 5 only
    on an empty page: lecture 5 returns the empty page with the table's
    row count, lecture 6 raises 204; on a non-empty page both return the
    same page, and where one raises [OverflowError] or
    [ValidationError] so does the other. *)
Theorem paginate_books_since_lecture_5
    (database : gmap Z BookBase) (page limit : Z) :
  (∀ earlier, Books5.paginate_books database page limit = Ok earlier →
     total earlier = Z.of_nat (size database)) ∧
  Books.paginate_books database page limit =
    match Books5.paginate_books database page limit with
    | Ok earlier =>
        match books earlier with
        | [] => NoContent
        | _ => Ok earlier
        end
    | raised => raised
    end.
Proof.
  unfold Books5.paginate_books, Books.paginate_books.
  destruct (Books.get_books database page limit) as [fetched| | | | | |];
    simpl; try (split; [discriminate | done]).
  unfold Books.page_of. rewrite built_page.
  destruct (forallb _ fetched) eqn:Hpres.
  - split.
    + intros ? [= <-]. simpl. unfold Books.total_books, Sql.select.
      f_equal. apply length_map_to_list.
    + by destruct fetched.
  - split; [discriminate|]. by destruct fetched.
Qed.

Lemma paginate_books_since_lecture_5_witness :
  ∃ earlier,
    Books5.paginate_books Samples.shelf 5 10 = Ok earlier ∧
    books earlier = [] ∧ total earlier = 2 ∧
    Books.paginate_books Samples.shelf 5 10 = NoContent.
Proof.
  destruct (paginate_books_since_lecture_5 Samples.shelf 5 10)
    as [Htotal Hlater].
  assert (H : Books5.paginate_books Samples.shelf 5 10 =
              Ok (mkPage [] 5 10 2)) by (vm_compute; reflexivity).
  exists (mkPage [] 5 10 2).
  split; [exact H|]. split; [reflexivity|].
  split; [exact (Htotal _ H)|]. rewrite Hlater, H. reflexivity.
Defined.

(** ** Matching of titles and authors *)

Section like.
Implicit Types (p t : list ascii) (c : ascii).

(** [Sql.like] on a pattern that starts with [c], by what [c] is. *)
Lemma like_cons c p t :
  Sql.like (c :: p) t =
    if Ascii.eqb c "%" then
      Sql.like p t ||
      match t with [] => false | _ :: t' => Sql.like (c :: p) t' end
    else if Ascii.eqb c "_" then
      match Sql.after_char t with None => false | Some t' => Sql.like p t' end
    else
      match t with [] => false | d :: t' => Ascii.eqb c d && Sql.like p t' end.
Proof.
  destruct c as [[] [] [] [] [] [] [] []]; destruct t; reflexivity.
Qed.

Lemma like_nil t : Sql.like [] t = true ↔ t = [].
Proof. by destruct t. Qed.

(** A leading ["%"] lets the rest of the pattern start anywhere. *)
Lemma like_percent p t :
  Sql.like ("%"%char :: p) t = true ↔
  ∃ pre post, t = (pre ++ post)%list ∧ Sql.like p post = true.
Proof.
  induction t as [|d t IH]; rewrite like_cons; simpl.
  - rewrite orb_false_r. split.
    + intros H. by exists [], [].
    + intros (pre & post & Heq & H). symmetry in Heq.
      apply app_eq_nil in Heq as [_ ->]. done.
  - rewrite orb_true_iff, IH. split.
    + intros [H|(pre & post & -> & H)].
      * by exists [], (d :: t).
      * by exists (d :: pre), post.
    + intros (pre & post & Heq & H). destruct pre as [|d' pre]; simpl in Heq.
      * left. by rewrite Heq.
      * right. injection Heq as -> ->. by exists pre, post.
Qed.



Lemma list_ascii_of_string_app (a b : string) :
  list_ascii_of_string (a ++ b) =
    (list_ascii_of_string a ++ list_ascii_of_string b)%list.
Proof. induction a as [|c a IH]; simpl; [done | by rewrite IH]. Qed.


Lemma to_lower_idemp c : Sql.to_lower (Sql.to_lower c) = Sql.to_lower c.
Proof. destruct c as [[] [] [] [] [] [] [] []]; by vm_compute. Qed.


Lemma lower_pattern (s : string) :
  Text.lower ("%" ++ s ++ "%") =
    ("%"%char :: Text.lower s ++ ["%"%char])%list.
Proof.
  unfold Text.lower.
  change ("%" ++ s ++ "%") with (String "%" (s ++ "%")).
  cbn [list_ascii_of_string].
  rewrite (list_ascii_of_string_app s "%"), fmap_cons, fmap_app.
  reflexivity.
Qed.

End like.



(** ** Search results *)

Section search.
Implicit Types (database : gmap Z BookBase) (rows : list BookRead).



(** The rows a search with at least one criterion ranges over. *)
Lemma search_query_matches database
    (t a : option string) (y : option Z) :
  Routers.search_filters t a y ≠ [] →
  Routers.search_query database (Routers.search_filters t a y) =
    List.filter (Text.matches t a y) (map_to_list database).
Proof.
  intros Hne.
  unfold Routers.search_query, Routers.where_, Sql.select, Text.matches.
  by destruct (Routers.search_filters t a y).
Qed.




(** ["%%%"] matches every text. *)
Lemma like_three_percent (t : list ascii) :
  Sql.like ["%"%char; "%"%char; "%"%char] t = true.
Proof.
  apply like_percent. exists [], t. split; [done|].
  apply like_percent. exists [], t. split; [done|].
  apply like_percent. exists t, []. by rewrite app_nil_r.
Qed.

End search.





(** X9: the needle is put into the pattern as it is, so a title needle
    of ["%"] matches every row: the search then returns what the plain
    listing returns, at the handler and at the route. *)
Theorem search_for_percent_lists_everything
    (database : gmap Z BookBase) (page limit : Z) :
  Routers.search_book database (Some "%") None None page limit =
    Routers.read_all_books database page limit ∧
  Api.search_route database (Some "%") None None page limit =
    Api.list_route database page limit.
Proof.
  assert (Hall : ∀ rows : list BookRead,
    Routers.where_ (Routers.search_filters (Some "%") None None) rows = rows).
  { intros rows. unfold Routers.where_. apply forallb_filter_id.
    apply forallb_forall. intros b _. simpl. rewrite andb_true_r.
    unfold Sql.ilike. apply like_three_percent. }
  assert (Hhandler :
    Routers.search_book database (Some "%") None None page limit =
      Routers.read_all_books database page limit).
  { unfold Routers.search_book, Routers.search_total, Routers.search_books,
      Routers.search_query, Routers.read_all_books, Books.paginate_books,
      Books.get_books, Books.total_books.
    change (Routers.search_filters (Some "%") None None)
      with ([λ b : BookRead, Sql.ilike (title b.2) ("%" ++ "%" ++ "%")]) in *.
    cbv iota. rewrite Hall. simpl.
    unfold compute_offset, Books.page_of.
    destruct (Sql.fetch _ _ _) as [[|row rows]| | | | | |]; reflexivity. }
  split; [exact Hhandler|].
  unfold Api.search_route, Api.list_route. simpl. by rewrite Hhandler.
Qed.

Section needle_case.
Implicit Types (database : gmap Z BookBase).

Lemma ilike_needle_lower (column s1 s2 : string) :
  Text.lower s1 = Text.lower s2 →
  Sql.ilike column ("%" ++ s1 ++ "%") = Sql.ilike column ("%" ++ s2 ++ "%").
Proof.
  intros H. unfold Sql.ilike.
  change (Sql.like (Text.lower ("%" ++ s1 ++ "%")) (Text.lower column) =
          Sql.like (Text.lower ("%" ++ s2 ++ "%")) (Text.lower column)).
  by rewrite !lower_pattern, H.
Qed.

Lemma lower_empty (s1 s2 : string) :
  Text.lower s1 = Text.lower s2 → (s1 = "" ↔ s2 = "").
Proof. by destruct s1, s2. Qed.

(** The filter a needle gives rise to depends on the needle only
    through its lower-case form. *)
Lemma needle_filters (column : BookBase → string) (n1 n2 : option string) :
  Text.lower <$> n1 = Text.lower <$> n2 →
  let filters (n : option string) : list (BookRead → bool) :=
    match n with
    | Some (String c s) =>
        [λ b : BookRead, Sql.ilike (column b.2) ("%" ++ String c s ++ "%")]
    | _ => []
    end in
  (filters n1 = [] ↔ filters n2 = []) ∧
  ∀ b, forallb (λ f : BookRead → bool, f b) (filters n1) =
       forallb (λ f : BookRead → bool, f b) (filters n2).
Proof.
  destruct n1 as [s1|], n2 as [s2|]; simpl; try done.
  intros [= H]. destruct s1 as [|c1 s1], s2 as [|c2 s2]; try done.
  split; [done|]. intros b. simpl. f_equal.
  by apply ilike_needle_lower.
Qed.

Lemma search_book_ext database (t1 a1 t2 a2 : option string) (y : option Z)
    (page limit : Z) :
  (Routers.search_filters t1 a1 y = [] ↔ Routers.search_filters t2 a2 y = []) →
  (∀ b, Text.matches t1 a1 y b = Text.matches t2 a2 y b) →
  Routers.search_book database t1 a1 y page limit =
    Routers.search_book database t2 a2 y page limit.
Proof.
  intros Hnil Hext.
  unfold Routers.search_book, Routers.search_total, Routers.search_books.
  destruct (decide (Routers.search_filters t1 a1 y = [])) as [H1|H1].
  - rewrite H1. apply Hnil in H1. by rewrite H1.
  - assert (H2 : Routers.search_filters t2 a2 y ≠ []) by (by rewrite <-Hnil).
    rewrite !search_query_matches by done.
    rewrite (filter_ext _ _ Hext).
    destruct (Routers.search_filters t1 a1 y); [done|].
    by destruct (Routers.search_filters t2 a2 y).
Qed.

End needle_case.

(** X10: the search does not tell upper from lower case in its needles:
    two requests whose title needles, and whose author needles, agree
    once put in lower case get the same answer. *)
Theorem search_ignores_needle_case (database : gmap Z BookBase)
    (title1 title2 author1 author2 : option string)
    (search_by_year : option Z) (page limit : Z) :
  Text.lower <$> title1 = Text.lower <$> title2 →
  Text.lower <$> author1 = Text.lower <$> author2 →
  Routers.search_book database title1 author1 search_by_year page limit =
    Routers.search_book database title2 author2 search_by_year page limit.
Proof.
  intros Ht Ha.
  destruct (needle_filters title title1 title2 Ht) as [Htn Hte].
  destruct (needle_filters author author1 author2 Ha) as [Han Hae].
  apply search_book_ext.
  - unfold Routers.search_filters. rewrite !app_nil. tauto.
  - intros b. unfold Text.matches, Routers.search_filters.
    rewrite !forallb_app. by rewrite Hte, Hae.
Qed.

Lemma search_ignores_needle_case_witness :
  Routers.search_book Samples.shelf (Some "DuNe") None None 1 10 =
    Routers.search_book Samples.shelf (Some "dune") None None 1 10.
Proof.
  apply (search_ignores_needle_case Samples.shelf
           (Some "DuNe") (Some "dune") None None None 1 10); reflexivity.
Defined.

(** ** Creating, updating and deleting, continued *)

Section crud.
Implicit Types (database : gmap Z BookBase) (id : Z).

(** The identifier of a new row is above every identifier in use. *)
Lemma next_id_above database id :
  is_Some (database !! id) → id < Sql.next_id database.
Proof.
  intros [b Hb]. apply elem_of_map_to_list in Hb.
  apply (list_elem_of_fmap_2 fst) in Hb. simpl in Hb.
  unfold Sql.next_id.
  destruct ((map_to_list database).*1) as [|k ks]; [by inversion Hb|].
  apply foldr_max_bound in Hb. lia.
Qed.

Lemma ascending_snoc (rows : list BookRead) (b : BookRead) :
  StronglySorted (λ x y : BookRead, x.1 < y.1) rows →
  Forall (λ x : BookRead, x.1 < b.1) rows →
  StronglySorted (λ x y : BookRead, x.1 < y.1) (rows ++ [b]).
Proof.
  intros Hs Hb. apply StronglySorted_app. split; [|split].
  - intros x y Hx ->%list_elem_of_singleton.
    rewrite Forall_forall in Hb. by apply Hb.
  - done.
  - repeat constructor.
Qed.

Lemma validate_year_range (v : json) (n : Z) :
  validate_year v = Valid (Some n) → 0 ≤ n ≤ 2030.
Proof.
  assert (Hbounded : ∀ m,
    (if (0 <=? m) && (m <=? 2030) then Valid (Some m) else Invalid)
      = Valid (Some n) → 0 ≤ n ≤ 2030).
  { intros m. destruct (Z.leb_spec 0 m), (Z.leb_spec m 2030); simpl;
      intros [= <-]; lia. }
  unfold validate_year, optional_int_0_2030.
  destruct (zero_or_empty_to_none v) as [[|[]|m|[m e| |]|s|]| |]; try done;
    try (apply Hbounded).
  - case_match; [apply Hbounded | done].
  - destruct (str_as_int s); [apply Hbounded | done].
Qed.

End crud.

(** X11: a valid create request adds exactly one row and changes no
    other; the identifier it returns is above every identifier in use,
    so the new record is the last of the listing order. *)
Theorem create_adds_one_row_last (database : gmap Z BookBase) (body : Body)
    (book_request : BookBase) :
  BookCreate body = Valid book_request →
  ∃ id,
    Routers.post_book database body =
      (<[id := book_request]> database, Ok (id, book_request)) ∧
    (∀ j, is_Some (database !! j) → j < id) ∧
    (∀ j, j ≠ id →
       Sql.get (Routers.post_book database body).1 j = Sql.get database j) ∧
    Books.total_books (Routers.post_book database body).1 =
      Books.total_books database + 1 ∧
    Sql.order_by_id (Sql.select (Routers.post_book database body).1) =
      (Sql.order_by_id (Sql.select database) ++ [(id, book_request)])%list.
Proof.
  intros Hvalid. exists (Sql.next_id database).
  unfold Routers.post_book. rewrite Hvalid. cbn [Routers.create_book fst].
  pose proof (next_id_fresh database) as Hfresh.
  pose proof (map_to_list_insert database _ book_request Hfresh) as Hperm.
  split; [done|]. split; [apply next_id_above|].
  split; [intros j Hj; unfold Sql.get; by rewrite lookup_insert_ne|].
  split.
  { unfold Books.total_books, Sql.select. rewrite Hperm. simpl length. lia. }
  apply (StronglySorted_unique_strong (λ x y : BookRead, x.1 < y.1)).
  - intros x1 x2 _ _ H1 H2. lia.
  - apply select_ascending.
  - apply ascending_snoc; [apply select_ascending|].
    apply Forall_forall. intros [j b] Hb. simpl.
    rewrite order_by_id_perm in Hb. apply elem_of_map_to_list in Hb.
    apply next_id_above. by exists b.
  - rewrite !order_by_id_perm. unfold Sql.select. rewrite Hperm.
    by rewrite Permutation_cons_append.
Qed.

Lemma create_adds_one_row_last_witness :
  ∃ id,
    Routers.post_book Samples.shelf
      (mkBody (Some (JStr "Ulysses")) (Some (JStr "Joyce")) (Some (JStr "1922")))
      = (<[id := mkBook "Ulysses" "Joyce" (Some 1922)]> Samples.shelf,
         Ok (id, mkBook "Ulysses" "Joyce" (Some 1922))) ∧
    (∀ j, is_Some (Samples.shelf !! j) → j < id).
Proof.
  destruct (create_adds_one_row_last Samples.shelf
    (mkBody (Some (JStr "Ulysses")) (Some (JStr "Joyce")) (Some (JStr "1922")))
    (mkBook "Ulysses" "Joyce" (Some 1922)) eq_refl)
    as (id & Hpost & Habove & _).
  exists id. split; [exact Hpost | exact Habove].
Defined.

(** X12: deleting the record a create request has just returned gives
    back the table as it was before the request. *)
Theorem create_then_delete_restores (database : gmap Z BookBase) (body : Body)
    (id : Z) (book : BookBase) :
  (Routers.post_book database body).2 = Ok (id, book) →
  Routers.delete_book (Routers.post_book database body).1 id =
    (database, Ok tt).
Proof.
  unfold Routers.post_book.
  destruct (BookCreate body) as [r| |]; [|done|done].
  cbn [Routers.create_book fst snd]. intros [= <- <-].
  unfold Routers.delete_book, Sql.get. rewrite lookup_insert_eq.
  by rewrite delete_insert_id by apply next_id_fresh.
Qed.

Lemma create_then_delete_restores_witness :
  Routers.delete_book
    (Routers.post_book Samples.shelf
       (mkBody (Some (JStr "Ulysses")) (Some (JStr "Joyce")) None)).1 3 =
    (Samples.shelf, Ok tt).
Proof.
  apply (create_then_delete_restores Samples.shelf
           (mkBody (Some (JStr "Ulysses")) (Some (JStr "Joyce")) None)
           3 (mkBook "Ulysses" "Joyce" None)).
  reflexivity.
Defined.

(** X13: an update aimed at an identifier that is not in the table
    never changes the table.  A body the schema refuses is answered
    with a validation error; a body it accepts is answered with 404
    when the identifier fits in 64 bits, and raises [OverflowError]
    when it does not, as does a body whose year is an infinite
    float. *)
Theorem update_of_missing_record (database : gmap Z BookBase) (body : Body)
    (book_id : Z) :
  database !! book_id = None →
  (Routers.put_book database body book_id).1 = database ∧
  ((Routers.put_book database body book_id).2 = Unprocessable ↔
   BookUpdate body = Invalid) ∧
  ((Routers.put_book database body book_id).2 = NotFound ↔
   Sql.fits book_id = true ∧ ∃ book_request, BookUpdate body = Valid book_request) ∧
  ((Routers.put_book database body book_id).2 = OverflowError ↔
   BookUpdate body = Overflowed ∨
   (Sql.fits book_id = false ∧
    ∃ book_request, BookUpdate body = Valid book_request)).
Proof.
  intros Hnone. unfold Routers.put_book, Routers.update_book, Sql.get.
  rewrite Hnone.
  destruct (BookUpdate body) as [r| |]; [destruct (Sql.fits book_id)| |];
    simpl; (split; [done|]); (split; [done|]); split; split;
    try done; try (by intros [? [? ?]]); try (by intros [? ?]);
    try (by intros [?|[? [? ?]]]); try (by eauto).
Qed.

Lemma update_of_missing_record_witness :
  (Routers.put_book Samples.shelf (Samples.title_only "Emma") 7).1 =
    Samples.shelf ∧
  (Routers.put_book Samples.shelf (Samples.title_only "Emma") 7).2 = NotFound ∧
  (Routers.put_book Samples.shelf (Samples.title_only "Emma") (2 ^ 63)).2 =
    OverflowError.
Proof.
  destruct (update_of_missing_record Samples.shelf
              (Samples.title_only "Emma") 7 eq_refl) as (Htable & _ & Hnf & _).
  destruct (update_of_missing_record Samples.shelf
              (Samples.title_only "Emma") (2 ^ 63) eq_refl) as (_ & _ & _ & Hov).
  split; [exact Htable|]. split.
  - apply Hnf. split; [reflexivity|]. eexists. reflexivity.
  - apply Hov. right. split; [reflexivity|]. eexists. reflexivity.
Defined.

(** X14: an update whose body carries no field is accepted and changes
    nothing: the stored record is returned as it is. *)
Theorem update_with_empty_body (database : gmap Z BookBase) (book_id : Z)
    (old : BookBase) :
  Sql.get database book_id = Ok (Some old) →
  Routers.put_book database (mkBody None None None) book_id =
    (database, Ok (book_id, old)).
Proof.
  intros Hold. unfold Routers.put_book, Routers.update_book. simpl.
  rewrite Hold. simpl. destruct old as [t a y]. simpl.
  f_equal. by apply insert_id, get_Some.
Qed.

Lemma update_with_empty_body_witness :
  Routers.put_book Samples.shelf (mkBody None None None) 2 =
    (Samples.shelf, Ok (2, Samples.emma)).
Proof.
  apply (update_with_empty_body Samples.shelf 2 Samples.emma). reflexivity.
Defined.

(** X15: sending the same update a second time changes nothing more:
    table and answer are those of the first time. *)
Theorem update_twice (database : gmap Z BookBase) (body : Body) (book_id : Z) :
  Routers.put_book (Routers.put_book database body book_id).1 body book_id =
    Routers.put_book database body book_id.
Proof.
  unfold Routers.put_book.
  destruct (BookUpdate body) as [[st sa sy]| |]; [|done|done].
  unfold Routers.update_book, Sql.get.
  destruct (database !! book_id) as [old|] eqn:Hold; simpl;
    [|destruct (Sql.fits book_id) eqn:Hfits; simpl; by rewrite Hold, ?Hfits].
  destruct st as [[t|]|], sa as [[a|]|]; simpl;
    rewrite ?Hold, ?lookup_insert_eq; simpl; try done;
    rewrite insert_insert_eq; by destruct sy.
Qed.

(** X16: an update that sets the title or the author of a stored record
    to null is refused when it is committed, and the table keeps the
    record as it was. *)
Theorem update_to_null_is_refused (database : gmap Z BookBase) (body : Body)
    (book_id : Z) (old : BookBase) (book_request : BookUpdateData) :
  Sql.get database book_id = Ok (Some old) →
  BookUpdate body = Valid book_request →
  body_title body = Some JNull ∨ body_author body = Some JNull →
  Routers.put_book database body book_id = (database, StoreFailure).
Proof.
  intros Hold Hvalid Hnull. unfold Routers.put_book. rewrite Hvalid.
  apply BookUpdate_inv in Hvalid as (Ht & Ha & _).
  unfold Routers.update_book. rewrite Hold.
  destruct book_request as [st sa sy]. simpl in *.
  destruct Hnull as [H|H].
  - rewrite H in Ht. simpl in Ht. injection Ht as <-. done.
  - rewrite H in Ha. simpl in Ha. injection Ha as <-. simpl.
    by destruct (Routers.assign _ st).
Qed.

Lemma update_to_null_is_refused_witness :
  Routers.put_book Samples.shelf
    (mkBody (Some (JStr "Emma")) (Some JNull) None) 2 =
    (Samples.shelf, StoreFailure).
Proof.
  apply (update_to_null_is_refused Samples.shelf
           (mkBody (Some (JStr "Emma")) (Some JNull) None) 2 Samples.emma
           (mkUpdate (Some (Some "Emma")) (Some None) None)).
  - reflexivity.
  - reflexivity.
  - right. reflexivity.
Defined.

(** ** What every table built by requests satisfies *)

Section invariant.
Implicit Types (database : gmap Z BookBase).

Lemma next_id_positive database :
  Api.well_formed database → 1 ≤ Sql.next_id database.
Proof.
  intros Hwf. unfold Sql.next_id.
  destruct ((map_to_list database).*1) as [|k ks] eqn:Hkeys; [done|].
  assert (Hk : k ∈ (map_to_list database).*1) by (rewrite Hkeys; left).
  apply list_elem_of_fmap in Hk as ([k' b] & -> & Hb).
  apply elem_of_map_to_list, Hwf in Hb as [Hb _]. simpl in *.
  assert (k' ≤ foldr Z.max k' ks) by (apply foldr_max_bound; left). lia.
Qed.

Lemma post_book_well_formed database (body : Body) :
  Api.well_formed database → Api.well_formed (Routers.post_book database body).1.
Proof.
  intros Hwf. unfold Routers.post_book.
  destruct (BookCreate body) as [r| |] eqn:Hvalid; [|done|done].
  cbn [Routers.create_book fst]. intros id book.
  rewrite lookup_insert. case_decide as Hid; [|by apply Hwf].
  intros [= <-]. split; [subst; by apply next_id_positive|].
  apply BookCreate_inv in Hvalid as (_ & _ & _ & _ & Hy).
  intros n Hn. destruct (body_year body) as [v|]; [|congruence].
  rewrite Hn in Hy. by apply validate_year_range in Hy.
Qed.

Lemma put_book_well_formed database (body : Body) (book_id : Z) :
  Api.well_formed database → Api.well_formed (Routers.put_book database body book_id).1.
Proof.
  intros Hwf. unfold Routers.put_book.
  destruct (BookUpdate body) as [[st sa sy]| |] eqn:Hvalid; [|done|done].
  apply BookUpdate_inv in Hvalid as (_ & _ & Hy). simpl in Hy.
  unfold Routers.update_book, Sql.get.
  destruct (database !! book_id) as [old|] eqn:Hold;
    [|by destruct (Sql.fits book_id)]. simpl.
  destruct (Routers.assign (Some (title old)) st) as [t|]; [|done].
  destruct (Routers.assign (Some (author old)) sa) as [a|]; [|done].
  simpl. intros id book. rewrite lookup_insert.
  case_decide as Hid; [|by apply Hwf].
  intros [= <-]. subst id. destruct (Hwf _ _ Hold) as [Hid Hyear].
  split; [done|]. simpl. intros n Hn.
  destruct sy as [y|]; simpl in Hn; [|by apply Hyear].
  destruct (body_year body) as [v|]; simpl in Hy; [|done].
  destruct (validate_year v) as [y'| |] eqn:Hv; [|done|done].
  injection Hy as <-. subst y'. by apply validate_year_range in Hv.
Qed.

Lemma serve_well_formed database (r : Api.request) :
  Api.well_formed database → Api.well_formed (Api.serve database r).
Proof.
  intros Hwf. destruct r as [body|body book_id|book_id]; simpl.
  - by apply post_book_well_formed.
  - unfold Api.put_route. case_match; [|done]. by apply put_book_well_formed.
  - unfold Api.delete_route, Routers.delete_book, Sql.get.
    case_match; [|done].
    destruct (database !! book_id); [|by destruct (Sql.fits book_id)]. simpl.
    intros id book Hb. apply lookup_delete_Some in Hb as [_ Hb].
    by apply Hwf.
Qed.

End invariant.

(** X17: in a table built from the empty one by any sequence of create,
    update and delete requests, every identifier is at least [1] and
    every year that is not null lies in [0, 2030]. *)
Theorem stored_records_stay_well_formed
    (requests : list Api.request) (id : Z) (book : BookBase) :
  Api.serve_all ∅ requests !! id = Some book →
  1 ≤ id ∧ ∀ n, year book = Some n → 0 ≤ n ≤ 2030.
Proof.
  assert (Hwf : ∀ database, Api.well_formed database →
            Api.well_formed (Api.serve_all database requests)).
  { unfold Api.serve_all.
    induction requests as [|r requests IH]; intros database Hdb; [done|].
    simpl. by apply IH, serve_well_formed. }
  apply (Hwf ∅). by intros ? ? ?%lookup_empty_Some.
Qed.

Lemma stored_records_stay_well_formed_witness :
  1 ≤ 1 ∧ ∀ n, year (mkBook "Emma" "" (Some 2030)) = Some n → 0 ≤ n ≤ 2030.
Proof.
  apply (stored_records_stay_well_formed
           [Api.Post (mkBody (Some (JStr "Emma")) (Some (JStr "Austen")) None);
            Api.Put (mkBody None (Some (JStr "")) (Some (JStr "2030"))) 1;
            Api.Delete 4]
           1 (mkBook "Emma" "" (Some 2030))).
  reflexivity.
Defined.

(** ** Years in requests *)

(** X18: a year given as an integer is stored as null when it is [0],
    kept when it lies in [1, 2030] and refused otherwise; a year given
    as a string that [int] can read is treated as the integer read. *)
Theorem year_as_integer_or_numeric_string (n : Z) (s : string) :
  PyInt.int_of_str s = Some n →
  validate_year (JStr s) = validate_year (JInt n) ∧
  validate_year (JInt n) =
    if n =? 0 then Valid None
    else if (1 <=? n) && (n <=? 2030) then Valid (Some n)
    else Invalid.
Proof.
  intros Hint. split.
  - unfold validate_year, zero_or_empty_to_none.
    destruct s as [|c s]; [by vm_compute in Hint|].
    cbn [PyInt.int]. by rewrite Hint.
  - unfold validate_year, zero_or_empty_to_none. cbn [PyInt.int].
    destruct (Z.eqb_spec n 0) as [->|Hn]; [done|].
    cbn [optional_int_0_2030].
    destruct (Z.leb_spec 0 n), (Z.leb_spec 1 n), (Z.leb_spec n 2030);
      simpl; try done; lia.
Qed.

Lemma year_as_integer_or_numeric_string_witness :
  validate_year (JStr " 1_984 ") = validate_year (JInt 1984) ∧
  validate_year (JInt 1984) = Valid (Some 1984).
Proof.
  apply (year_as_integer_or_numeric_string 1984 " 1_984 "). reflexivity.
Defined.

(** ** Records of the grade analyzer *)

Section records.
Import Grades.
Implicit Types (students : list Student) (s : Student).

Lemma add_grade_names students (student_name : string) (grade : Z) :
  name <$> add_grade students student_name grade = name <$> students.
Proof.
  unfold add_grade. case_match; [|done].
  rewrite <-list_fmap_compose. apply list_fmap_ext.
  intros i s _. simpl. by case_match.
Qed.

Lemma existsb_name_false students (student_name : string) :
  existsb (λ s, String.eqb (name s) student_name) students = false →
  student_name ∉ name <$> students.
Proof.
  intros Hex (s & -> & Hs)%list_elem_of_fmap.
  assert (existsb (λ s', String.eqb (name s') (name s)) students = true);
    [|congruence].
  apply existsb_exists. exists s. split; [by apply list_elem_of_In|].
  apply String.eqb_refl.
Qed.

Lemma step_names_nodup students (c : command) :
  NoDup (name <$> students) → NoDup (name <$> step students c).
Proof.
  intros Hnd. destruct c as [n|n g]; simpl.
  - unfold add_student. case_match eqn:Hex; [done|].
    rewrite fmap_app. apply NoDup_app. split; [done|]. split.
    + intros x Hx ->%list_elem_of_singleton.
      by apply existsb_name_false in Hex.
    + apply NoDup_singleton.
  - by rewrite add_grade_names.
Qed.

(** One command keeps every record in place, under its name, with its
    grades so far at the front. *)
Lemma step_extends students (c : command) (i : nat) s :
  students !! i = Some s →
  ∃ s', step students c !! i = Some s' ∧ name s' = name s ∧
        grades s `prefix_of` grades s'.
Proof.
  intros Hs. destruct c as [n|n g]; simpl.
  - unfold add_student. case_match; [by exists s|].
    exists s. split; [|done]. by apply lookup_app_l_Some.
  - unfold add_grade. case_match; [|by exists s].
    rewrite list_lookup_fmap, Hs. simpl. case_match.
    + eexists. split; [done|]. split; [done|]. by apply prefix_app_r.
    + by exists s.
Qed.

End records.

(** X19: in the records of any session no two students have the same
    name. *)
Theorem student_names_are_unique (session : list Grades.command) :
  NoDup (Grades.name <$> Grades.run session).
Proof.
  unfold Grades.run.
  assert (Hnil : NoDup (Grades.name <$> [])) by constructor.
  revert Hnil. generalize (@nil Grades.Student).
  induction session as [|c session IH]; intros students Hnd; [done|].
  simpl. by apply IH, step_names_nodup.
Qed.

(** X20: the records only grow: whatever commands follow, a student
    stays at the same position under the same name, and the grades
    entered so far stay, in order, at the front of the student's
    grades. *)
Theorem records_only_grow (session more : list Grades.command)
    (i : nat) (s : Grades.Student) :
  Grades.run session !! i = Some s →
  ∃ s', Grades.run (session ++ more) !! i = Some s' ∧
        Grades.name s' = Grades.name s ∧
        Grades.grades s `prefix_of` Grades.grades s'.
Proof.
  unfold Grades.run. rewrite fold_left_app.
  generalize (fold_left Grades.step session []). intros students.
  revert students s. induction more as [|c more IH]; intros students s Hs.
  - by exists s.
  - destruct (step_extends students c i s Hs) as (s1 & Hs1 & Hn1 & Hg1).
    destruct (IH _ _ Hs1) as (s2 & Hs2 & Hn2 & Hg2).
    exists s2. split; [done|]. split; [congruence|]. by etrans.
Qed.

Lemma records_only_grow_witness :
  ∃ s', Grades.run ([Grades.AddStudent "Ann"; Grades.AddGrade "Ann" 70] ++
                    [Grades.AddStudent "Ben"; Grades.AddGrade "Ann" 90])
          !! 0%nat = Some s' ∧
        Grades.name s' = "Ann" ∧ [70] `prefix_of` Grades.grades s'.
Proof.
  apply (records_only_grow
           [Grades.AddStudent "Ann"; Grades.AddGrade "Ann" 70]
           [Grades.AddStudent "Ben"; Grades.AddGrade "Ann" 90]
           0%nat (Grades.mkStudent "Ann" [70])).
  reflexivity.
Defined.

(** X21: entering a grade changes the records exactly when the grade
    lies in [0, 100] and a student of that name exists; a grade out of
    range or an unknown name leaves them as they are. *)
Theorem add_grade_changes_nothing_iff (students : list Grades.Student)
    (student_name : string) (grade : Z) :
  Grades.add_grade students student_name grade = students ↔
  grade < 0 ∨ 100 < grade ∨ student_name ∉ Grades.name <$> students.
Proof.
  unfold Grades.add_grade.
  destruct (Z.leb_spec 0 grade), (Z.leb_spec grade 100); simpl;
    try (split; [intros _; lia | done]).
  split.
  - intros Heq. right. right. intros (s & -> & Hs)%list_elem_of_fmap.
    apply list_elem_of_lookup in Hs as [i Hi].
    apply (f_equal (λ l, l !! i)) in Heq.
    rewrite list_lookup_fmap, Hi in Heq. simpl in Heq.
    rewrite String.eqb_refl in Heq. injection Heq as Heq.
    apply (f_equal (λ s', length (Grades.grades s'))) in Heq.
    simpl in Heq. rewrite length_app in Heq. simpl in Heq. lia.
  - intros [?|[?|Hnotin]]; [lia|lia|].
    rewrite <-(list_fmap_id students) at 2. apply list_fmap_ext.
    intros i s Hs. simpl. destruct (String.eqb_spec (Grades.name s) student_name)
      as [Heq|]; [|done].
    exfalso. apply Hnotin. rewrite <-Heq.
    apply list_elem_of_fmap_2. by eapply list_elem_of_lookup_2.
Qed.

(** X22: [top_performer] prints that there are no students exactly on
    empty records, and that there are no grades exactly on non-empty
    records in which nobody has a grade. *)
Theorem top_performer_messages (students : list Grades.Student) :
  (Grades.top_performer students = Grades.NoStudents ↔ students = []) ∧
  (Grades.top_performer students = Grades.NoGrades ↔
   students ≠ [] ∧ Forall (λ s, Grades.grades s = []) students).
Proof.
  assert (Hannounce : ∀ tops avg,
    Grades.announce tops avg ≠ Grades.NoStudents ∧
    Grades.announce tops avg ≠ Grades.NoGrades).
  { intros [|a [|b tops]] avg; done. }
  destruct students as [|first rest]; [by split; split; try done; intros []|].
  unfold Grades.top_performer.
  destruct (Grades.any_grades (first :: rest)) eqn:Hany.
  - apply existsb_exists in Hany as (s & Hs%list_elem_of_In & Hg).
    assert (Hsome : ¬ Forall (λ s, Grades.grades s = []) (first :: rest)).
    { rewrite Forall_forall. intros Hall. specialize (Hall s Hs).
      unfold Grades.has_grades in Hg. by rewrite Hall in Hg. }
    destruct (Grades.calculate_average _) as [avg|].
    + destruct (Hannounce
        (Grades.all_top_students (first :: rest) avg) avg) as [H1 H2].
      split; split; try done. by intros [_ ?].
    + split; split; try done. by intros [_ ?].
  - split; [done|]. split; [|done]. intros _. split; [done|].
    apply Forall_forall. intros s Hs%list_elem_of_In.
    destruct (Grades.grades s) as [|g gs] eqn:Hgs; [done|].
    assert (Grades.any_grades (first :: rest) = true); [|congruence].
    apply existsb_exists. exists s. split; [done|].
    unfold Grades.has_grades. by rewrite Hgs.
Qed.

(** ** Averages *)

(** X23: the average of a non-empty list of grades within [0, 100] lies
    between [0.0] and [100.0]. *)
Theorem average_within_bounds (grades : list Z) :
  grades ≠ [] → Grades.valid_grades grades = true →
  ∃ average, Grades.calculate_average grades = Some average ∧
             0 ≤ average ≤ 1000.
Proof.
  intros Hne Hv. exists (Grades.mean1 grades). split.
  - unfold Grades.calculate_average. by destruct grades.
  - split; [by apply mean1_nonneg | by apply mean1_upper].
Qed.

Lemma average_within_bounds_witness :
  ∃ average, Grades.calculate_average [100; 100; 99] = Some average ∧
             0 ≤ average ≤ 1000.
Proof.
  apply (average_within_bounds [100; 100; 99]); [discriminate | reflexivity].
Defined.

(** X24: when the grades, each within [0, 100], add up to a whole
    multiple [g] of their number, the average is exactly [g]: neither
    the float division nor the rounding moves it.  The average of equal
    grades is that grade. *)
Theorem whole_average_is_exact (grades : list Z) (g : Z) :
  grades ≠ [] → 0 ≤ g ≤ 100 →
  Grades.sum grades = g * Z.of_nat (length grades) →
  Grades.calculate_average grades = Some (10 * g).
Proof.
  intros Hne Hg Hsum. unfold Grades.calculate_average.
  destruct grades as [|g0 gs] eqn:Hgrades; [done|]. rewrite <-Hgrades in *.
  f_equal. by apply mean1_exact.
Qed.

Lemma whole_average_is_exact_witness :
  Grades.calculate_average [90; 80; 85] = Some (10 * 85).
Proof.
  apply (whole_average_is_exact [90; 80; 85] 85);
    [discriminate | lia | reflexivity].
Defined.

(** ** Life stages *)

(** X25: [generate_profile] returns a life stage for every integer age
    (no age runs past its last branch); for a birth year that [int] can
    read, the script prints "Child" from 2013 on (also for years still
    to come), "Teenager" from 2006 to 2012 and "Adult" up to 2005. *)
Theorem life_stage_by_birth_year (birth_year_str : string) (birth_year : Z) :
  PyInt.int_of_str birth_year_str = Some birth_year →
  (∀ age, ∃ stage, Profile.generate_profile age = Some stage) ∧
  Profile.life_stage birth_year_str =
    Some (Some (if 2013 <=? birth_year then "Child"
                else if 2006 <=? birth_year then "Teenager"
                else "Adult")).
Proof.
  intros Hint. split.
  - intros age. unfold Profile.generate_profile.
    destruct (Z.leb_spec age 12); [by eauto|].
    destruct (Z.leb_spec 13 age), (Z.leb_spec age 19); simpl; try by eauto.
    + destruct (Z.leb_spec 20 age); [by eauto | lia].
    + lia.
    + lia.
  - unfold Profile.life_stage. rewrite Hint. simpl. do 2 f_equal.
    unfold Profile.generate_profile, Profile.current_age.
    destruct (Z.leb_spec 2013 birth_year), (Z.leb_spec (2025 - birth_year) 12);
      try lia; [done|].
    destruct (Z.leb_spec 2006 birth_year),
      (Z.leb_spec 13 (2025 - birth_year)),
      (Z.leb_spec (2025 - birth_year) 19); simpl; try lia; [done|].
    destruct (Z.leb_spec 20 (2025 - birth_year)); [done | lia].
Qed.

Lemma life_stage_by_birth_year_witness :
  Profile.life_stage "3000" = Some (Some "Child").
Proof.
  apply (life_stage_by_birth_year "3000" 3000 eq_refl).
Defined.

(** ** Student names *)

Section names.
Import Names.
Implicit Types (c : ascii) (l w : list ascii) (ws : list (list ascii)).

(** Changing the case of a character changes nothing else about it. *)
Lemma case_facts c :
  PyInt.is_space (Sql.to_lower c) = PyInt.is_space c ∧
  PyInt.is_space (to_upper c) = PyInt.is_space c ∧
  is_alpha (Sql.to_lower c) = is_alpha c ∧
  is_alpha (to_upper c) = is_alpha c ∧
  allowed_char (Sql.to_lower c) = allowed_char c ∧
  allowed_char (to_upper c) = allowed_char c ∧
  to_upper (to_upper c) = to_upper c ∧
  to_upper (Sql.to_lower c) = to_upper c ∧
  bool_decide (Sql.to_lower c = "1"%char) = bool_decide (c = "1"%char).
Proof. destruct c as [[] [] [] [] [] [] [] []]; by vm_compute. Qed.

Lemma title_lower (b : bool) l : title b (Sql.to_lower <$> l) = title b l.
Proof.
  revert b. induction l as [|c l IH]; intros b; [done|].
  rewrite fmap_cons. cbn [title].
  destruct (case_facts c) as (_ & _ & -> & _ & _ & _ & _ & -> & _).
  rewrite to_lower_idemp. by rewrite IH.
Qed.

Lemma title_idemp (b : bool) l : title b (title b l) = title b l.
Proof.
  revert b. induction l as [|c l IH]; intros b; [done|]. cbn [title].
  destruct (case_facts c) as (_ & _ & Hl & Hu & _ & _ & Huu & _ & _).
  destruct b; [rewrite to_lower_idemp, Hl | rewrite Huu, Hu]; by rewrite IH.
Qed.

Lemma title_valid (b : bool) l :
  forallb (λ char, is_alpha char || allowed_char char) (title b l) =
  forallb (λ char, is_alpha char || allowed_char char) l.
Proof.
  revert b. induction l as [|c l IH]; intros b; [done|]. cbn [title forallb].
  destruct (case_facts c) as (_ & _ & Hl & Hu & Hal & Hau & _).
  rewrite IH. by destruct b; rewrite ?Hl, ?Hu, ?Hal, ?Hau.
Qed.

Lemma title_space (b : bool) l1 l2 :
  title b (l1 ++ " "%char :: l2) = (title b l1 ++ " "%char :: title false l2)%list.
Proof.
  revert b. induction l1 as [|c l1 IH]; intros b; simpl.
  - by destruct b.
  - by rewrite IH.
Qed.

Lemma title_word (b : bool) w : is_word w = true → is_word (title b w) = true.
Proof.
  unfold is_word. destruct w as [|c w]; [done|]. intros Hw. cbn [title].
  revert b Hw. generalize c. clear c.
  induction w as [|d w IH]; intros c b; cbn [title forallb];
    destruct (case_facts c) as (Hl & Hu & _).
  - by destruct b; rewrite ?Hl, ?Hu.
  - intros (Hc & Hw)%andb_prop. specialize (IH d (is_alpha c) Hw).
    cbn [title forallb] in IH. rewrite IH, andb_true_r.
    by destruct b; rewrite ?Hl, ?Hu.
Qed.

(** [split] on a text that starts with a character that is not white
    space. *)
Lemma split_cons c l :
  PyInt.is_space c = false →
  split (c :: l) =
    match l with
    | [] => [[c]]
    | d :: _ =>
        if PyInt.is_space d then [c] :: split l
        else match split l with
             | w :: ws => (c :: w) :: ws
             | [] => [[c]]
             end
    end.
Proof. intros Hc. cbn [split]. by rewrite Hc. Qed.

Lemma split_space c l : PyInt.is_space c = true → split (c :: l) = split l.
Proof. intros Hc. cbn [split]. by rewrite Hc. Qed.

Lemma split_words l : Forall (λ w, is_word w = true) (split l).
Proof.
  induction l as [|c l IH]; [constructor|].
  destruct (PyInt.is_space c) eqn:Hc; [by rewrite split_space|].
  rewrite split_cons by done.
  assert (Hone : is_word [c] = true) by (simpl; by rewrite Hc).
  destruct l as [|d l']; [by repeat constructor|].
  destruct (PyInt.is_space d); [by constructor|].
  destruct (split (d :: l')) as [|w ws]; [by repeat constructor|].
  apply Forall_cons in IH as [Hw Hws]. constructor; [|done].
  unfold is_word in *. destruct w; [done|]. cbn [forallb] in *.
  by rewrite Hc, Hw.
Qed.

(** A word followed by white space, or by nothing, is split off as it
    is. *)
Lemma split_word_app w l :
  is_word w = true →
  match l with [] => True | d :: _ => PyInt.is_space d = true end →
  split (w ++ l) = w :: split l.
Proof.
  intros Hw Hl. destruct w as [|c w]; [done|]. revert c Hw.
  induction w as [|c2 w IH]; intros c Hw; simpl in Hw;
    apply andb_prop in Hw as [Hc%negb_true_iff Hw].
  - change ([c] ++ l)%list with (c :: l). rewrite split_cons by done.
    destruct l as [|d l']; [done|]. by rewrite Hl.
  - change ((c :: c2 :: w) ++ l)%list with (c :: ((c2 :: w) ++ l))%list.
    rewrite split_cons by done.
    assert (Hw2 : is_word (c2 :: w) = true) by done.
    rewrite (IH c2 Hw2).
    apply andb_prop in Hw as [Hc2%negb_true_iff _].
    cbn [app]. by rewrite Hc2.
Qed.

Lemma split_join ws :
  Forall (λ w, is_word w = true) ws → split (join ws) = ws.
Proof.
  induction ws as [|w ws IH]; [done|].
  intros [Hw Hws]%Forall_cons. destruct ws as [|w2 ws].
  - cbn [join]. rewrite <-(app_nil_r w) at 1. by rewrite split_word_app.
  - change (join (w :: w2 :: ws)) with (w ++ " "%char :: join (w2 :: ws))%list.
    rewrite split_word_app by done.
    rewrite split_space by done. by rewrite IH.
Qed.

(** Joining the words of a text and splitting again changes nothing
    more. *)
Lemma join_split_join l : join (split (join (split l))) = join (split l).
Proof. by rewrite split_join by apply split_words. Qed.

Lemma title_join (b : bool) ws :
  Forall (λ w, is_word w = true) ws →
  ∃ ws', Forall (λ w, is_word w = true) ws' ∧
         title b (join ws) = join ws' ∧ (ws = [] ↔ ws' = []).
Proof.
  revert b. induction ws as [|w ws IH]; intros b Hws.
  - by exists [].
  - apply Forall_cons in Hws as [Hw Hws]. destruct ws as [|w2 ws].
    + exists [title b w]. split; [|done]. repeat constructor.
      by apply title_word.
    + destruct (IH false Hws) as (ws' & Hws' & Heq & Hnil).
      exists (title b w :: ws'). split; [|split; [|done]].
      * constructor; [by apply title_word | done].
      * change (join (w :: w2 :: ws))
          with (w ++ " "%char :: join (w2 :: ws))%list.
        rewrite title_space, Heq.
        destruct ws' as [|w' ws']; [by destruct Hnil as [_ ?]; naive_solver|].
        done.
Qed.

(** *** White space at the ends *)

Lemma lstrip_head l c l' : PyInt.lstrip l = c :: l' → PyInt.is_space c = false.
Proof.
  induction l as [|d l IH]; [done|]. simpl.
  destruct (PyInt.is_space d) eqn:Hd; [done|]. by intros [= <- _].
Qed.

Lemma lstrip_suffix l : ∃ pre, l = (pre ++ PyInt.lstrip l)%list.
Proof.
  induction l as [|d l [pre IH]]; [by exists []|]. simpl.
  destruct (PyInt.is_space d); [|by exists []].
  exists (d :: pre). simpl. by rewrite <-IH.
Qed.

Lemma strip_head l c l' : PyInt.strip l = c :: l' → PyInt.is_space c = false.
Proof.
  unfold PyInt.strip. intros Hstrip.
  destruct (lstrip_suffix (rev (PyInt.lstrip l))) as [pre Hpre].
  apply (f_equal (@rev ascii)) in Hpre.
  rewrite rev_involutive, rev_app_distr, Hstrip in Hpre.
  by apply (lstrip_head l c (l' ++ rev pre)).
Qed.

Lemma strip_id l c l' l0 d :
  l = c :: l' → PyInt.is_space c = false →
  l = (l0 ++ [d])%list → PyInt.is_space d = false →
  PyInt.strip l = l.
Proof.
  intros Hhead Hc Hlast Hd. unfold PyInt.strip.
  assert (PyInt.lstrip l = l) as -> by (rewrite Hhead; simpl; by rewrite Hc).
  rewrite Hlast, rev_app_distr. simpl. rewrite Hd.
  change (d :: rev l0) with (rev [d] ++ rev l0)%list.
  by rewrite <-rev_app_distr, rev_involutive.
Qed.

Lemma word_ends w :
  is_word w = true →
  (∃ c l', w = c :: l' ∧ PyInt.is_space c = false) ∧
  (∃ l0 d, w = (l0 ++ [d])%list ∧ PyInt.is_space d = false).
Proof.
  destruct w as [|c w]; [done|]. simpl.
  intros [Hc%negb_true_iff Hw]%andb_prop. split; [by eauto|].
  revert c Hc Hw. induction w as [|c2 w IH]; intros c Hc Hw.
  - by exists [], c.
  - simpl in Hw. apply andb_prop in Hw as [Hc2%negb_true_iff Hw].
    destruct (IH c2 Hc2 Hw) as (l0 & d & Heq & Hd).
    exists (c :: l0), d. by rewrite Heq.
Qed.

Lemma join_ends ws :
  Forall (λ w, is_word w = true) ws → ws ≠ [] →
  (∃ c l', join ws = c :: l' ∧ PyInt.is_space c = false) ∧
  (∃ l0 d, join ws = (l0 ++ [d])%list ∧ PyInt.is_space d = false).
Proof.
  induction ws as [|w ws IH]; [done|].
  intros [Hw Hws]%Forall_cons _.
  destruct (word_ends w Hw) as [(c & l' & Hhead & Hc) Hlast].
  destruct ws as [|w2 ws]; [by split; [eauto|]|].
  change (join (w :: w2 :: ws)) with (w ++ " "%char :: join (w2 :: ws))%list.
  split; [exists c, (l' ++ " "%char :: join (w2 :: ws))%list; by rewrite Hhead|].
  destruct (IH Hws ltac:(done)) as [_ (l0 & d & Heq & Hd)].
  exists (w ++ " "%char :: l0)%list, d. rewrite Heq.
  split; [by rewrite <-app_assoc | done].
Qed.

(** *** Characters of the formatted name *)

Lemma split_forall (P : ascii → bool) l :
  forallb P l = true → Forall (λ w, forallb P w = true) (split l).
Proof.
  induction l as [|c l IH]; [constructor|]. cbn [forallb].
  intros [Hc Hl]%andb_prop. specialize (IH Hl).
  destruct (PyInt.is_space c) eqn:Hs; [by rewrite split_space|].
  rewrite split_cons by done.
  assert (Hone : forallb P [c] = true) by (simpl; by rewrite Hc).
  destruct l as [|d l']; [by repeat constructor|].
  destruct (PyInt.is_space d); [by constructor|].
  destruct (split (d :: l')) as [|w ws]; [by repeat constructor|].
  apply Forall_cons in IH as [Hw Hws]. constructor; [|done].
  simpl. by rewrite Hc, Hw.
Qed.

Lemma join_forall (P : ascii → bool) ws :
  P " "%char = true →
  Forall (λ w, forallb P w = true) ws → forallb P (join ws) = true.
Proof.
  intros Hsp. induction ws as [|w ws IH]; [done|].
  intros [Hw Hws]%Forall_cons. destruct ws as [|w2 ws]; [done|].
  change (join (w :: w2 :: ws)) with (w ++ " "%char :: join (w2 :: ws))%list.
  rewrite forallb_app. cbn [forallb]. by rewrite Hw, Hsp, IH.
Qed.

(** *** Letter case *)

Lemma lstrip_lower l :
  PyInt.lstrip (Sql.to_lower <$> l) = Sql.to_lower <$> PyInt.lstrip l.
Proof.
  induction l as [|c l IH]; [done|]. rewrite fmap_cons. cbn [PyInt.lstrip].
  destruct (case_facts c) as (-> & _).
  destruct (PyInt.is_space c); [exact IH | done].
Qed.

Lemma fmap_rev (f : ascii → ascii) l : f <$> rev l = rev (f <$> l).
Proof.
  induction l as [|c l IH]; [done|]. rewrite fmap_cons. simpl.
  by rewrite fmap_app, IH.
Qed.

Lemma strip_lower l :
  PyInt.strip (Sql.to_lower <$> l) = Sql.to_lower <$> PyInt.strip l.
Proof.
  unfold PyInt.strip.
  by rewrite lstrip_lower, <-fmap_rev, lstrip_lower, <-fmap_rev.
Qed.

Lemma split_lower l :
  split (Sql.to_lower <$> l) = (fmap (M := list) Sql.to_lower) <$> split l.
Proof.
  induction l as [|c l IH]; [done|]. rewrite fmap_cons.
  destruct (case_facts c) as (Hsp & _).
  destruct (PyInt.is_space c) eqn:Hc.
  - rewrite !split_space by congruence. exact IH.
  - rewrite !split_cons by congruence.
    destruct l as [|d l']; [done|]. rewrite fmap_cons in *.
    destruct (case_facts d) as (-> & _).
    destruct (PyInt.is_space d); [by rewrite IH|].
    rewrite IH. by destruct (split (d :: l')).
Qed.

Lemma join_lower ws :
  join ((fmap (M := list) Sql.to_lower) <$> ws) = Sql.to_lower <$> join ws.
Proof.
  induction ws as [|w ws IH]; [done|]. destruct ws as [|w2 ws]; [done|].
  change (join (fmap (M := list) Sql.to_lower <$> w :: w2 :: ws))
    with ((Sql.to_lower <$> w) ++ " "%char ::
          join (fmap (M := list) Sql.to_lower <$> w2 :: ws))%list.
  change (join (w :: w2 :: ws)) with (w ++ " "%char :: join (w2 :: ws))%list.
  by rewrite IH, fmap_app, fmap_cons.
Qed.

Lemma valid_lower l :
  forallb (λ char, is_alpha char || allowed_char char) (Sql.to_lower <$> l) =
  forallb (λ char, is_alpha char || allowed_char char) l.
Proof.
  induction l as [|c l IH]; [done|]. rewrite fmap_cons. cbn [forallb].
  destruct (case_facts c) as (_ & _ & -> & _ & -> & _). by rewrite IH.
Qed.

(** [check] sees its input only through its lower-case form. *)
Lemma check_lower l : check (Sql.to_lower <$> l) = check l.
Proof.
  destruct l as [|c l]; [done|]. rewrite fmap_cons.
  unfold check. rewrite <-!fmap_cons.
  assert (Hone : bool_decide (Sql.to_lower <$> c :: l = ["1"%char]) =
                 bool_decide (c :: l = ["1"%char])).
  { destruct l as [|d l].
    - destruct (case_facts c) as (_ & _ & _ & _ & _ & _ & _ & _ & Hc).
      change (Sql.to_lower <$> [c]) with [Sql.to_lower c].
      apply bool_decide_ext. split; intros [= H]; f_equal.
      + apply (bool_decide_eq_true_1 (c = "1"%char)). rewrite <-Hc.
        by apply bool_decide_eq_true_2.
      + by rewrite H.
    - apply bool_decide_ext. split; intros [=]. }
  by rewrite Hone, valid_lower, split_lower, join_lower, title_lower.
Qed.

(** *** The formatted name *)

Lemma split_nonempty c l : PyInt.is_space c = false → split (c :: l) ≠ [].
Proof.
  intros Hc. rewrite split_cons by done.
  destruct l as [|d l]; [done|].
  destruct (PyInt.is_space d); [done|]. by destruct (split (d :: l)).
Qed.

(** What [check] returns as a name is accepted again and returned
    unchanged. *)
Lemma check_stable l c l' (formatted : list ascii) :
  l = c :: l' → PyInt.is_space c = false →
  check l = Name (string_of_list_ascii formatted) →
  formatted ≠ [] ∧
  join (split formatted) = formatted ∧
  check (PyInt.strip formatted) = Name (string_of_list_ascii formatted).
Proof.
  intros Hl Hc Hcheck. unfold check in Hcheck. rewrite Hl in Hcheck.
  rewrite <-Hl in Hcheck.
  destruct (bool_decide (l = ["1"%char])); [done|].
  destruct (forallb _ l) eqn:Hvalid; [|done].
  injection Hcheck as Hn.
  apply (f_equal list_ascii_of_string) in Hn.
  rewrite !list_ascii_of_string_of_list_ascii in Hn. subst formatted.
  pose proof (split_words l) as Hws.
  assert (Hne : split l ≠ []) by (rewrite Hl; by apply split_nonempty).
  destruct (title_join false (split l) Hws) as (ws' & Hws' & Heq & Hnil).
  assert (Hne' : ws' ≠ []) by (intros H; by apply Hne, Hnil).
  destruct (join_ends ws' Hws' Hne') as [(c1 & l1 & Hhead & Hc1)
                                         (l0 & d & Hlast & Hd)].
  assert (Hvalid' : forallb (λ char, is_alpha char || allowed_char char)
                      (title false (join (split l))) = true).
  { rewrite title_valid. apply join_forall; [done|]. by apply split_forall. }
  assert (Hshape : join (split (title false (join (split l)))) =
                   title false (join (split l)))
    by (by rewrite Heq, split_join).
  split; [by rewrite Heq, Hhead|]. split; [exact Hshape|].
  rewrite (strip_id _ c1 l1 l0 d) by (by rewrite ?Heq).
  unfold check. rewrite Hshape, title_idemp, Hvalid'.
  destruct (title false (join (split l))) as [|c2 l2] eqn:Ht;
    [by rewrite Hhead in Heq|].
  case_bool_decide as Hone; [|done].
  rewrite Hone in Hvalid'. by vm_compute in Hvalid'.
Qed.

Lemma check_name_lower (input1 input2 : string) :
  Text.lower input1 = Text.lower input2 →
  check_name_once input1 = check_name_once input2.
Proof.
  unfold Text.lower, check_name_once. intros H.
  rewrite <-(check_lower (PyInt.strip (list_ascii_of_string input1))).
  rewrite <-(check_lower (PyInt.strip (list_ascii_of_string input2))).
  by rewrite <-!strip_lower, H.
Qed.

Lemma add_student_twice (students : list Grades.Student) (n : string) :
  Grades.add_student (Grades.add_student students n) n =
    Grades.add_student students n.
Proof.
  unfold Grades.add_student.
  destruct (existsb _ students) eqn:Hex; [by rewrite Hex|].
  rewrite existsb_app. simpl. by rewrite String.eqb_refl, orb_true_r.
Qed.

End names.

(** X26: on ASCII input, a name returned by [check_name] is never empty,
    has its words separated by single spaces with none at either end,
    and is itself accepted and returned unchanged when typed in again. *)
Theorem formatted_name_is_stable (input formatted : string) :
  Names.is_ascii (list_ascii_of_string input) = true →
  Names.check_name_once input = Names.Name formatted →
  formatted ≠ "" ∧
  Names.join (Names.split (list_ascii_of_string formatted)) =
    list_ascii_of_string formatted ∧
  Names.check_name_once formatted = Names.Name formatted.
Proof.
  intros _ Hcheck. unfold Names.check_name_once in *.
  destruct (PyInt.strip (list_ascii_of_string input)) as [|c l'] eqn:Hx;
    [done|].
  pose proof (strip_head _ _ _ Hx) as Hc.
  rewrite <-(string_of_list_ascii_of_string formatted) in Hcheck.
  destruct (check_stable (c :: l') c l' (list_ascii_of_string formatted)
              eq_refl Hc Hcheck) as (Hne & Hshape & Hagain).
  rewrite string_of_list_ascii_of_string in Hagain.
  split; [by destruct formatted|]. split; [exact Hshape | exact Hagain].
Qed.

Lemma formatted_name_is_stable_witness :
  Names.check_name_once "John O'Neil-Smith" = Names.Name "John O'Neil-Smith".
Proof.
  apply (formatted_name_is_stable "  john   o'neil-SMITH " "John O'Neil-Smith");
    reflexivity.
Defined.

(** X27: on ASCII input, [check_name] does not tell upper from lower
    case: two inputs that agree once put in lower case get the same
    answer, and so the same formatted name. *)
Theorem check_name_ignores_case (input1 input2 : string) :
  Names.is_ascii (list_ascii_of_string input1) = true →
  Names.is_ascii (list_ascii_of_string input2) = true →
  Text.lower input1 = Text.lower input2 →
  Names.check_name_once input1 = Names.check_name_once input2.
Proof. intros _ _. apply check_name_lower. Qed.

Lemma check_name_ignores_case_witness :
  Names.check_name_once "mARY ann" = Names.check_name_once "Mary ANN".
Proof.
  apply (check_name_ignores_case "mARY ann" "Mary ANN"); reflexivity.
Defined.

(** X28: on ASCII input, once a line has been accepted as the name of
    a new student, typing that name again, in any mix of upper and lower
    case, is accepted too and adds no second record. *)
Theorem respelled_name_adds_nothing (students : list Grades.Student)
    (input1 input2 formatted : string) (rest1 rest2 : list string) :
  Names.is_ascii (list_ascii_of_string input1) = true →
  Names.is_ascii (list_ascii_of_string input2) = true →
  Text.lower input1 = Text.lower input2 →
  Names.check_name_once input1 = Names.Name formatted →
  ∃ students1,
    Names.add_student students (input1 :: rest1) = Some (students1, rest1) ∧
    Names.add_student students1 (input2 :: rest2) = Some (students1, rest2).
Proof.
  intros _ _ Hlower Hname. unfold Names.add_student. cbn [Names.check_name].
  rewrite <-(check_name_lower input1 input2 Hlower), Hname.
  eexists. split; [reflexivity|]. by rewrite add_student_twice.
Qed.

Lemma respelled_name_adds_nothing_witness :
  ∃ students1,
    Names.add_student [] ["ann lee"; "x"] = Some (students1, ["x"]) ∧
    Names.add_student students1 ["ANN LEE"] = Some (students1, []).
Proof.
  apply (respelled_name_adds_nothing [] "ann lee" "ANN LEE" "Ann Lee");
    reflexivity.
Defined.

Section prompts.
Import Names.

Lemma check_name_rest (inputs : list string) r (rest : list string) :
  check_name inputs = Some (r, rest) → ∃ read, inputs = (read ++ rest)%list.
Proof.
  induction inputs as [|input inputs IH]; [done|]. cbn [check_name].
  destruct (check_name_once input).
  - intros (read & ->)%IH. by exists (input :: read).
  - intros [= _ <-]. by exists [input].
  - intros [= _ <-]. by exists [input].
Qed.

(** The grades the loop accepts lie in [0, 100]; the lines it leaves
    are the last of those it was given. *)
Lemma read_grades_spec (inputs : list string) (grades : list Z)
    (rest : list string) :
  read_grades inputs = Some (grades, rest) →
  Grades.valid_grades grades = true ∧ ∃ read, inputs = (read ++ rest)%list.
Proof.
  revert grades. induction inputs as [|input inputs IH]; intros grades; [done|].
  cbn [read_grades]. case_bool_decide.
  { intros [= <- <-]. split; [done|]. by exists [input]. }
  assert (Hskip : read_grades inputs = Some (grades, rest) →
    Grades.valid_grades grades = true ∧
    ∃ read, input :: inputs = (read ++ rest)%list).
  { intros (Hv & read & ->)%IH. split; [done|]. by exists (input :: read). }
  destruct (PyInt.int_of_str input) as [grade|]; [|done].
  destruct ((0 <=? grade) && (grade <=? 100)) eqn:Hrange; [|done].
  destruct (read_grades inputs) as [[grades' rest']|]; [|done].
  simpl. intros [= <- <-].
  destruct (IH grades' eq_refl) as (Hv & read & ->).
  split; [simpl; by rewrite Hrange, Hv|]. by exists (input :: read).
Qed.

Lemma append_grades_valid (students : list Grades.Student)
    (student_name : string) (added : list Z) :
  Grades.valid_grades added = true →
  Grades.valid_students students = true →
  Grades.valid_students
    ((λ s, if String.eqb (Grades.name s) student_name
           then Grades.mkStudent (Grades.name s) (Grades.grades s ++ added)
           else s) <$> students) = true.
Proof.
  intros Ha. unfold Grades.valid_students. rewrite !forallb_forall.
  intros Hv s' Hin.
  apply list_elem_of_In, list_elem_of_fmap in Hin as (s & -> & Hs).
  apply list_elem_of_In, Hv in Hs.
  destruct (String.eqb (Grades.name s) student_name); simpl; [|done].
  unfold Grades.valid_grades in *. by rewrite forallb_app, Hs, Ha.
Qed.

End prompts.

(** X29: [check_name] asks again for every ASCII line that is blank,
    or that holds a character other than a letter, a space, a hyphen or
    an apostrophe (the single line ["1"] apart): the lines refused are
    passed over and the answer is that of the lines after them. *)
Theorem check_name_asks_again (refused inputs : list string) :
  Forall (λ input,
    Names.is_ascii (list_ascii_of_string input) = true ∧
    let name_input := PyInt.strip (list_ascii_of_string input) in
    (name_input = [] ∨
     (name_input ≠ ["1"%char] ∧
      forallb (λ char, Names.is_alpha char || Names.allowed_char char)
        name_input = false))) refused →
  Names.check_name (refused ++ inputs) = Names.check_name inputs ∧
  Names.check_name refused = None.
Proof.
  induction refused as [|input refused IH]; [done|].
  intros [[_ Hinput] Hrefused]%Forall_cons.
  destruct (IH Hrefused) as [IH1 IH2].
  change ((input :: refused) ++ inputs)%list
    with (input :: (refused ++ inputs))%list.
  cbn [Names.check_name]. unfold Names.check_name_once, Names.check.
  destruct Hinput as [->|[Hone Hvalid]]; [done|].
  destruct (PyInt.strip (list_ascii_of_string input)) as [|c l]; [done|].
  rewrite Hvalid. by case_bool_decide.
Qed.

Lemma check_name_asks_again_witness :
  Names.check_name (["  "; "r2d2"] ++ ["1"]) = Names.check_name ["1"] ∧
  Names.check_name ["  "; "r2d2"] = None.
Proof.
  apply (check_name_asks_again ["  "; "r2d2"] ["1"]).
  apply Forall_cons. split; [split; [reflexivity | left; reflexivity]|].
  apply Forall_cons.
  split; [split; [reflexivity | right; split; [discriminate | reflexivity]]|].
  constructor.
Defined.

(** X30: when [add_grades] returns, the students are those it was given
    under the same names and in the same order; one name at most has
    grades added, at the end of that student's grades and all within
    [0, 100]; the lines not read are the last of the lines typed; and
    with no students nothing is read at all. *)
Theorem add_grades_effect (students students' : list Grades.Student)
    (inputs rest : list string) :
  Names.add_grades students inputs = Some (students', rest) →
  (students = [] → students' = [] ∧ rest = inputs) ∧
  (∃ read, inputs = (read ++ rest)%list) ∧
  (Grades.valid_students students = true →
   Grades.valid_students students' = true) ∧
  ∃ student_name added,
    Grades.valid_grades added = true ∧
    students' =
      (λ s, if String.eqb (Grades.name s) student_name
            then Grades.mkStudent (Grades.name s) (Grades.grades s ++ added)
            else s) <$> students.
Proof.
  assert (Hsame : ∀ n : string, students =
    (λ s, if String.eqb (Grades.name s) n
          then Grades.mkStudent (Grades.name s) (Grades.grades s ++ [])
          else s) <$> students).
  { intros n. rewrite <-(list_fmap_id students) at 1. apply list_fmap_ext.
    intros i [nm gs] _. simpl. rewrite app_nil_r. by case_match. }
  unfold Names.add_grades.
  destruct students as [|first others] eqn:Hstudents.
  { intros [= <- <-]. split; [done|]. split; [by exists []|].
    split; [done|]. by exists "", []. }
  assert (Hne : students ≠ []) by (by rewrite Hstudents).
  rewrite <-Hstudents in *. clear Hstudents.
  destruct (Names.check_name inputs) as [[[n|] rest0]|] eqn:Hname; [| |done].
  - apply check_name_rest in Hname as [read0 ->].
    destruct (existsb _ students).
    + destruct (Names.read_grades rest0) as [[added rest1]|] eqn:Hread; [|done].
      simpl. intros [= <- <-].
      apply read_grades_spec in Hread as (Hv & read1 & ->).
      split; [done|].
      split; [exists (read0 ++ read1)%list; by rewrite app_assoc|].
      split; [by apply append_grades_valid|]. by exists n, added.
    + intros [= <- <-]. split; [done|]. split; [by eauto|].
      split; [done|]. exists n, []. split; [done | apply Hsame].
  - apply check_name_rest in Hname as [read0 ->].
    intros [= <- <-]. split; [done|]. split; [by eauto|].
    split; [done|]. exists "", []. split; [done | apply Hsame].
Qed.

Lemma add_grades_effect_witness :
  ∃ student_name added,
    Grades.valid_grades added = true ∧
    [Grades.mkStudent "Ann Lee" [5; 90; 7]; Grades.mkStudent "Bo" []] =
      (λ s, if String.eqb (Grades.name s) student_name
            then Grades.mkStudent (Grades.name s) (Grades.grades s ++ added)
            else s) <$>
      [Grades.mkStudent "Ann Lee" [5]; Grades.mkStudent "Bo" []].
Proof.
  apply (add_grades_effect
           [Grades.mkStudent "Ann Lee" [5]; Grades.mkStudent "Bo" []]
           [Grades.mkStudent "Ann Lee" [5; 90; 7]; Grades.mkStudent "Bo" []]
           ["ann  LEE"; "90"; "abc"; "101"; " 7 "; "DoNe"; "next"] ["next"]).
  reflexivity.
Defined.
